(** * MovieMind: the natural-language search pipeline and the introduction loader

    A shallow embedding of
      - [src/database/db_manager.py]: [execute_query], [search_movies],
        [ai_search], [_call_deepseek_api], [_parse_ai_response],
        [_execute_ai_sql];
      - [src/backend/utils/intro_loader.py]: [_build_intro_cache],
        [load_intro_cache], [get_movie_introduction].

    Python strings are sequences of Unicode code points, Python values are
    the values [json.loads] and a dict cursor can produce, and the effects
    of the code (the data store, the HTTP call, the module-level cache,
    exceptions) are threaded through a state-and-exception monad. *)

From Stdlib Require Import List ZArith NArith Bool Lia String Ascii.
From Stdlib Require Import DecimalString.
Import ListNotations.

Set Implicit Arguments.
Set Warnings "-register-all".

(* ================================================================== *)
(** ** Python [str]: sequences of code points *)
(* ================================================================== *)

Module PyStr.

Definition str := list N.

(** UTF-8 decoding, used only to write the literals of the source. *)
Fixpoint utf8_decode (bs : list N) : str :=
  match bs with
  | [] => []
  | b0 :: r0 =>
      if (b0 <? 128)%N then b0 :: utf8_decode r0
      else if (b0 <? 224)%N then
        match r0 with
        | b1 :: r1 => ((b0 - 192) * 64 + (b1 - 128))%N :: utf8_decode r1
        | _ => []
        end
      else if (b0 <? 240)%N then
        match r0 with
        | b1 :: b2 :: r2 =>
            ((b0 - 224) * 4096 + (b1 - 128) * 64 + (b2 - 128))%N
              :: utf8_decode r2
        | _ => []
        end
      else
        match r0 with
        | b1 :: b2 :: b3 :: r3 =>
            ((b0 - 240) * 262144 + (b1 - 128) * 4096
             + (b2 - 128) * 64 + (b3 - 128))%N :: utf8_decode r3
        | _ => []
        end
  end.

Definition lit (s : string) : str :=
  utf8_decode (map N_of_ascii (list_ascii_of_string s)).

Definition str_eqb (a b : str) : bool :=
  if list_eq_dec N.eq_dec a b then true else false.

(** [s.startswith(p)] *)
Fixpoint startswith (s p : str) {struct p} : bool :=
  match p, s with
  | [], _ => true
  | _ :: _, [] => false
  | c :: p', d :: s' => (c =? d)%N && startswith s' p'
  end.

(** [s.find(sub)]: the least index at which [sub] occurs, or -1. *)
Fixpoint find_nat (s sub : str) : option nat :=
  if startswith s sub then Some 0%nat
  else match s with
       | [] => None
       | _ :: s' => option_map S (find_nat s' sub)
       end.

Definition find (s sub : str) : Z :=
  match find_nat s sub with
  | Some k => Z.of_nat k
  | None => (-1)%Z
  end.

(** What it means for [sub] to occur in [s] at index [k], to occur there
    first, and not to occur at all. *)
Definition occurs_at (s sub : str) (k : nat) : Prop :=
  startswith (skipn k s) sub = true.

Definition first_occurrence (s sub : str) (k : nat) : Prop :=
  occurs_at s sub k /\ forall j, (j < k)%nat -> ~ occurs_at s sub j.

Definition absent (s sub : str) : Prop :=
  forall j, ~ occurs_at s sub j.

(** [sub in s] *)
Definition contains (s sub : str) : bool :=
  match find_nat s sub with Some _ => true | None => false end.

(** Slices [s[i:]] and [s[:i]]; a negative index counts from the end. *)
Definition slice_index (s : str) (i : Z) : nat :=
  if (i <? 0)%Z then Z.to_nat (Z.max 0 (Z.of_nat (List.length s) + i))
  else Z.to_nat i.

Definition slice_from (s : str) (i : Z) : str := skipn (slice_index s i) s.
Definition slice_to (s : str) (i : Z) : str := firstn (slice_index s i) s.

(** [str.isspace] on one code point: the characters [str.strip()] removes. *)
Definition isspace (c : N) : bool :=
  ((9 <=? c) && (c <=? 13)
   || (28 <=? c) && (c <=? 32)
   || (c =? 133) || (c =? 160) || (c =? 5760)
   || (8192 <=? c) && (c <=? 8202)
   || (c =? 8232) || (c =? 8233) || (c =? 8239) || (c =? 8287)
   || (c =? 12288))%N.

Fixpoint dropwhile (f : N -> bool) (s : str) : str :=
  match s with
  | [] => []
  | c :: s' => if f c then dropwhile f s' else s
  end.

Definition lstrip (s : str) : str := dropwhile isspace s.
Definition rstrip (s : str) : str := rev (dropwhile isspace (rev s)).
Definition strip (s : str) : str := rstrip (lstrip s).

(** [s.rstrip(chars)] *)
Definition rstrip_chars (chars s : str) : str :=
  rev (dropwhile (fun c => existsb (N.eqb c) chars) (rev s)).

(** [s.upper()]: Python applies the full Unicode upper-case mapping to each
    code point, and that mapping may produce several code points.  The
    table belongs to the interpreter, so it is a parameter here. *)
Definition upper (upper_cp : N -> str) (s : str) : str :=
  flat_map upper_cp s.

(** The mapping on ASCII and on caseless scripts: [a-z] to [A-Z], everything
    else unchanged.  It agrees with Python on every string made of ASCII and
    caseless characters (CJK text, digits, punctuation). *)
Definition ascii_upper_cp (c : N) : str :=
  if ((97 <=? c) && (c <=? 122))%N then [(c - 32)%N] else [c].

End PyStr.
Import PyStr.

Definition SELECT : str := Eval cbv in lit "SELECT".
Definition INSERT : str := Eval cbv in lit "INSERT".
Definition UPDATE : str := Eval cbv in lit "UPDATE".
Definition DELETE : str := Eval cbv in lit "DELETE".
Definition DROP : str := Eval cbv in lit "DROP".

(* ================================================================== *)
(** ** Python values and exceptions *)
(* ================================================================== *)

(** A float is observed by this code only through [bool(f)] and [str(f)]. *)
Record pyfloat := { float_truthy : bool; float_str : str }.

(** The values [json.loads] produces, which are also the values a dict
    cursor hands back: [None], [bool], [int], [float], [str], [list], and
    [dict] with string keys in insertion order. *)
Inductive value :=
| VNone
| VBool (b : bool)
| VInt (n : Z)
| VFloat (f : pyfloat)
| VStr (s : str)
| VList (l : list value)
| VDict (d : list (str * value)).

(** The exceptions that occur; every one of them derives from [Exception],
    so a bare [except Exception] catches them all. *)
Inductive exn :=
| JSONDecodeError
| AttributeError
| KeyError
| IndexError
| TypeError
| RecursionError
| FileNotFoundError
| PermissionError
| UnicodeDecodeError
| ProgrammingError      (* psycopg2: malformed SQL, unknown column or table *)
| IntegrityError        (* psycopg2: constraint violation *)
| OperationalError      (* psycopg2: connection lost, statement timeout *)
| PoolError             (* psycopg2.pool: no connection available *)
| RequestException.     (* requests: connection error, timeout *)

Definition exn_eqb (a b : exn) : bool :=
  match a, b with
  | JSONDecodeError, JSONDecodeError | AttributeError, AttributeError
  | KeyError, KeyError | IndexError, IndexError | TypeError, TypeError
  | RecursionError, RecursionError | FileNotFoundError, FileNotFoundError
  | PermissionError, PermissionError | UnicodeDecodeError, UnicodeDecodeError
  | ProgrammingError, ProgrammingError | IntegrityError, IntegrityError
  | OperationalError, OperationalError | PoolError, PoolError
  | RequestException, RequestException => true
  | _, _ => false
  end.

Inductive result (A : Type) :=
| Ok (a : A)
| Raise (e : exn).
Arguments Raise {A} e.

Definition rbind {A B} (r : result A) (k : A -> result B) : result B :=
  match r with
  | Ok a => k a
  | Raise e => Raise e
  end.

Notation "'let?' x ':=' r 'in' k" := (rbind r (fun x => k))
  (at level 10, x pattern, r at level 100, k at level 200).

(** [try: body  except E: handler], for a single exception class [E]. *)
Definition rcatch {A} (body : result A) (E : exn) (handler : result A)
  : result A :=
  match body with
  | Ok a => Ok a
  | Raise e => if exn_eqb e E then handler else Raise e
  end.

(** [d.get(key, default)] on the association list of a dict. *)
Fixpoint dict_get {A} (d : list (str * A)) (key : str) (default : A) : A :=
  match d with
  | [] => default
  | (k, v) :: d' => if str_eqb k key then v else dict_get d' key default
  end.

(** [d[key] = v]: overwrite in place, or append. *)
Fixpoint dict_set {A} (d : list (str * A)) (key : str) (v : A)
  : list (str * A) :=
  match d with
  | [] => [(key, v)]
  | (k, w) :: d' =>
      if str_eqb k key then (k, v) :: d' else (k, w) :: dict_set d' key v
  end.

Definition dict_mem {A} (d : list (str * A)) (key : str) : bool :=
  existsb (fun kv => str_eqb (fst kv) key) d.

Definition keys {A} (d : list (str * A)) : list str := map fst d.

(** [bool(v)] *)
Definition truthy (v : value) : bool :=
  match v with
  | VNone => false
  | VBool b => b
  | VInt n => negb (n =? 0)%Z
  | VFloat f => float_truthy f
  | VStr s => match s with [] => false | _ => true end
  | VList l => match l with [] => false | _ => true end
  | VDict d => match d with [] => false | _ => true end
  end.

(** [a or b] *)
Definition py_or (a b : value) : value := if truthy a then a else b.

(** [v.get(key, default)]: only a dict has the method. *)
Definition method_get (v : value) (key : str) (default : value)
  : result value :=
  match v with
  | VDict d => Ok (dict_get d key default)
  | _ => Raise AttributeError
  end.

(** [v.strip()]: only a str has the method. *)
Definition method_strip (v : value) : result str :=
  match v with
  | VStr s => Ok (strip s)
  | _ => Raise AttributeError
  end.

(** [v[key]] with a string key. *)
Definition getitem_key (v : value) (key : str) : result value :=
  match v with
  | VDict d =>
      if dict_mem d key then Ok (dict_get d key VNone) else Raise KeyError
  | _ => Raise TypeError
  end.

(** [v[0]] *)
Definition getitem_0 (v : value) : result value :=
  match v with
  | VList (x :: _) => Ok x
  | VList [] => Raise IndexError
  | VStr (c :: _) => Ok (VStr [c])
  | VStr [] => Raise IndexError
  | VDict _ => Raise KeyError
  | _ => Raise TypeError
  end.

Definition isinstance_dict (v : value) : bool :=
  match v with VDict _ => true | _ => false end.

Definition isinstance_list (v : value) : bool :=
  match v with VList _ => true | _ => false end.

(* ================================================================== *)
(** ** Effects: the data store, the HTTP endpoint, exceptions *)
(* ================================================================== *)

(** What [requests.post] hands back: the status, the body text, and what
    [response.json()] yields for that body. *)
Record http_response := {
  status_code : Z;
  text : str;
  json_body : result value
}.

Section Effects.

(** Everything outside the process: the contents of the data store and
    the behaviour of the remote endpoint. *)
Variable Env : Type.

(** The state a call runs in: the environment, the statements handed to
    [cursor.execute] so far (with their parameters) and the prompts
    posted to the endpoint so far. *)
Record World := {
  env : Env;
  executed : list (str * list str);
  posted : list str
}.

Definition M (A : Type) : Type := World -> World * result A.

Definition ret {A} (a : A) : M A := fun w => (w, Ok a).

Definition bind {A B} (m : M A) (k : A -> M B) : M B :=
  fun w => match m w with
           | (w', Ok a) => k a w'
           | (w', Raise e) => (w', Raise e)
           end.

Definition lift {A} (r : result A) : M A := fun w => (w, r).

(** [try: body  except Exception: handler] *)
Definition try_except {A} (body : M A) (handler : exn -> M A) : M A :=
  fun w => match body w with
           | (w', Ok a) => (w', Ok a)
           | (w', Raise e) => handler e w'
           end.

End Effects.

Arguments ret {Env A} a.
Arguments lift {Env A} r.

Notation "x <- m ;; k" := (bind m (fun x => k))
  (at level 61, m at next level, right associativity).

(* ================================================================== *)
(** ** [src/database/db_manager.py] *)
(* ================================================================== *)

(** The statement of [search_movies], as it stands in the source. *)
Definition SEARCH_QUERY : str := Eval cbv in lit "
            SELECT m.movie_id, m.rank, m.cn_title, m.original_title, m.year,
                   m.rating, m.poster_url,
                   COALESCE(STRING_AGG(DISTINCT d.name, ', '), '') AS directors,
                   COALESCE(STRING_AGG(DISTINCT a.name, ', '), '') AS actors
            FROM movie m
            LEFT JOIN movie_director md ON m.movie_id = md.movie_id
            LEFT JOIN director d ON md.director_id = d.director_id
            LEFT JOIN movie_actor ma ON m.movie_id = ma.movie_id
            LEFT JOIN actor a ON ma.actor_id = a.actor_id
            WHERE m.cn_title ILIKE %s 
               OR m.original_title ILIKE %s
               OR EXISTS (
                    SELECT 1 FROM movie_director md2
                    JOIN director d2 ON md2.director_id = d2.director_id
                    WHERE md2.movie_id = m.movie_id AND d2.name ILIKE %s
               )
               OR EXISTS (
                    SELECT 1 FROM movie_actor ma2
                    JOIN actor a2 ON ma2.actor_id = a2.actor_id
                    WHERE ma2.movie_id = m.movie_id AND a2.name ILIKE %s
               )
            GROUP BY m.movie_id
            ORDER BY m.rank
            LIMIT 50
        ".

(** The result of [ai_search]: the dict with keys ['movies'], ['sql'] and
    ['interpretation']. *)
Record SearchResult := {
  movies : list value;
  sql : str;
  interpretation : str
}.

(** The three terminators the text scan tries, in this order: a code
    fence, two line feeds, two CR LF pairs. *)
Definition FENCE : str := [96; 96; 96]%N.
Definition DOUBLE_LF : str := [10; 10]%N.
Definition DOUBLE_CRLF : str := [13; 10; 13; 10]%N.

Definition TERMINATORS : list str := [FENCE; DOUBLE_LF; DOUBLE_CRLF].

Section DatabaseManager.

(** The interpreter and its libraries *)
Variable upper_cp : N -> str.                 (* Unicode upper-casing *)
Variable json_loads : str -> result value.    (* json.loads *)

(** The outside world *)
Variable Env : Type.
Variable cursor_execute :
  str -> list str -> Env -> Env * result (list value).
Variable requests_post :
  str -> str -> Env -> Env * result http_response.

(** Configuration and the fixed text of the prompt template around
    [{user_input}] *)
Variable DEEPSEEK_API_KEY : str.
Variables PROMPT_HEAD PROMPT_TAIL : str.

Local Abbreviation M := (M Env).
Local Abbreviation py_upper := (upper upper_cp).

(** [execute_query] with [fetch_one=False]: take a connection, run the
    statement on a dict cursor, [fetchall()], release the connection; an
    error is logged and raised again. *)
Definition execute_query (query : str) (params : list str)
  : M (list value) :=
  fun w =>
    let (e', r) := cursor_execute query params (env w) in
    ({| env := e';
        executed := executed w ++ [(query, params)];
        posted := posted w |}, r).

Definition search_movies (keyword : str) : M (list value) :=
  let search_pattern := lit "%" ++ keyword ++ lit "%" in
  execute_query SEARCH_QUERY
    [search_pattern; search_pattern; search_pattern; search_pattern].

Definition _build_ai_search_prompt (user_input : str) : str :=
  PROMPT_HEAD ++ user_input ++ PROMPT_TAIL.

(** One POST with the bearer token, the prompt as the only message,
    temperature 0.1, at most 1000 tokens, and a 30 second timeout. *)
Definition post (prompt : str) : M http_response :=
  fun w =>
    let (e', r) := requests_post DEEPSEEK_API_KEY prompt (env w) in
    ({| env := e';
        executed := executed w;
        posted := posted w ++ [prompt] |}, r).

(** Returns the content of the first choice, or [None]. *)
Definition _call_deepseek_api (prompt : str) : M value :=
  try_except
    (response <- post prompt ;;
     if (status_code response =? 200)%Z then
       lift (let? result := json_body response in
             let? choices := getitem_key result (lit "choices") in
             let? choice := getitem_0 choices in
             let? message := getitem_key choice (lit "message") in
             getitem_key message (lit "content"))
     else ret VNone)
    (fun _ => ret VNone).

(** The loop over the terminators: cut at the first terminator of the
    list that occurs, then stop. *)
Fixpoint cut_at_terminator (sql_candidate : str) (terminators : list str)
  : str :=
  match terminators with
  | [] => sql_candidate
  | terminator :: rest =>
      let idx := find sql_candidate terminator in
      if negb (idx =? -1)%Z then slice_to sql_candidate idx
      else cut_at_terminator sql_candidate rest
  end.

(** The body of the [except json.JSONDecodeError] branch of
    [_parse_ai_response]. *)
Definition extract_sql_from_text (response : str) : option str * str :=
  let sql_start := find (py_upper response) SELECT in
  if negb (sql_start =? -1)%Z then
    let sql_candidate := slice_from response sql_start in
    let sql_candidate := cut_at_terminator sql_candidate TERMINATORS in
    let sql_candidate := rstrip_chars (lit ",") (strip sql_candidate) in
    if startswith (py_upper sql_candidate) SELECT
    then (Some sql_candidate, lit "从文本中提取的查询")
    else (None, lit "无法解析AI响应")
  else (None, lit "无法解析AI响应").

Definition _parse_ai_response (response : str)
  : result (option str * str) :=
  rcatch
    (let? parsed := json_loads (strip response) in
     let? sql_field := method_get parsed (lit "sql") (VStr []) in
     let? sql := method_strip sql_field in
     let? interp_field :=
       method_get parsed (lit "interpretation")
                  (VStr (lit "AI生成的查询")) in
     let? interpretation := method_strip interp_field in
     if negb (str_eqb sql []) && startswith (py_upper sql) SELECT
     then Ok (Some sql, interpretation)
     else Ok (None, interpretation))
    JSONDecodeError
    (Ok (extract_sql_from_text response)).

(** The check of [_execute_ai_sql]:
    [sql_query.upper().strip().startswith('SELECT')]. *)
Definition is_select (sql_query : str) : bool :=
  startswith (strip (py_upper sql_query)) SELECT.

Definition _execute_ai_sql (sql_query : str) : M (list value) :=
  try_except
    (if str_eqb sql_query [] || negb (is_select sql_query) then ret []
     else
       result <- execute_query sql_query [] ;;
       match result with
       | first :: _ =>
           if isinstance_dict first then ret (firstn 50 result)
           else ret result
       | [] => ret []
       end)
    (fun _ => ret []).

(** The keyword-search result that [ai_search] builds in four places. *)
Definition keyword_fallback (user_input : str) : M SearchResult :=
  movies <- search_movies user_input ;;
  ret {| movies := movies;
         sql := lit "SELECT * FROM movie WHERE cn_title ILIKE '%"
                  ++ user_input ++ lit "%'";
         interpretation := lit "关键词搜索: " ++ user_input |}.

Definition ai_search (user_input : str) : M SearchResult :=
  try_except
    (if str_eqb DEEPSEEK_API_KEY [] then keyword_fallback user_input
     else
       let prompt := _build_ai_search_prompt user_input in
       response <- _call_deepseek_api prompt ;;
       if negb (truthy response) then keyword_fallback user_input
       else
         (* [response.strip()] exists only on a str *)
         parsed <- lift (match response with
                         | VStr s => _parse_ai_response s
                         | _ => Raise AttributeError
                         end) ;;
         let '(sql_query, interpretation) := parsed in
         match sql_query with
         | None => keyword_fallback user_input
         | Some sql_query =>
             if str_eqb sql_query [] then keyword_fallback user_input
             else
               movies <- _execute_ai_sql sql_query ;;
               ret {| movies := movies;
                      sql := sql_query;
                      interpretation := interpretation |}
         end)
    (fun _ => keyword_fallback user_input).

End DatabaseManager.

(* ================================================================== *)
(** ** A reference decoder for [json.loads] *)
(* ================================================================== *)

(** The pipeline above takes [json.loads] as a parameter.  To run it on
    concrete responses, this module gives a decoder that follows the
    scanner of Python's [json] package: JSON white space, objects (a
    repeated key overwrites in place), arrays, strings in strict mode with
    their escapes and surrogate pairs, [null], [true], [false], [NaN],
    [Infinity], [-Infinity], and numbers.  The conversion of a lexeme with
    a fraction or an exponent to a float is the interpreter's and stays a
    parameter; the interpreter's limits (recursion depth, digits of an
    int) are not modelled. *)
Module JsonRef.

Definition is_ws (c : N) : bool :=
  ((c =? 32) || (c =? 9) || (c =? 10) || (c =? 13))%N.

Definition skip_ws (s : str) : str := dropwhile is_ws s.

Definition is_digit (c : N) : bool := ((48 <=? c) && (c <=? 57))%N.

Fixpoint span (f : N -> bool) (s : str) : str * str :=
  match s with
  | c :: r => if f c then let (a, b) := span f r in (c :: a, b)
              else ([], s)
  | [] => ([], [])
  end.

Definition hex_digit (c : N) : option N :=
  if is_digit c then Some (c - 48)%N
  else if ((97 <=? c) && (c <=? 102))%N then Some (c - 87)%N
  else if ((65 <=? c) && (c <=? 70))%N then Some (c - 55)%N
  else None.

Definition hex4 (a b c d : N) : option N :=
  match hex_digit a, hex_digit b, hex_digit c, hex_digit d with
  | Some x, Some y, Some z, Some w =>
      Some (x * 4096 + y * 256 + z * 16 + w)%N
  | _, _, _, _ => None
  end.

Definition simple_escape (e : N) : option N :=
  if (e =? 34)%N then Some 34%N          (* quote *)
  else if (e =? 92)%N then Some 92%N     (* backslash *)
  else if (e =? 47)%N then Some 47%N     (* slash *)
  else if (e =? 98)%N then Some 8%N      (* b *)
  else if (e =? 102)%N then Some 12%N    (* f *)
  else if (e =? 110)%N then Some 10%N    (* n *)
  else if (e =? 114)%N then Some 13%N    (* r *)
  else if (e =? 116)%N then Some 9%N     (* t *)
  else None.

Definition is_high (u : N) : bool := ((55296 <=? u) && (u <=? 56319))%N.
Definition is_low (u : N) : bool := ((56320 <=? u) && (u <=? 57343))%N.

(** The text after an opening quote: the decoded string and the rest. *)
Fixpoint scanstring (s acc : str) : option (str * str) :=
  match s with
  | [] => None
  | c :: r =>
      if (c =? 34)%N then Some (rev acc, r)
      else if (c <? 32)%N then None
      else if negb (c =? 92)%N then scanstring r (c :: acc)
      else
        match r with
        | [] => None
        | e :: r1 =>
            if negb (e =? 117)%N then
              match simple_escape e with
              | Some x => scanstring r1 (x :: acc)
              | None => None
              end
            else
              match r1 with
              | h1 :: h2 :: h3 :: h4 :: r2 =>
                  match hex4 h1 h2 h3 h4 with
                  | None => None
                  | Some uni =>
                      match r2 with
                      | b :: u :: g1 :: g2 :: g3 :: g4 :: r3 =>
                          if is_high uni && (b =? 92)%N && (u =? 117)%N
                          then
                            match hex4 g1 g2 g3 g4 with
                            | None => None
                            | Some uni2 =>
                                if is_low uni2 then
                                  scanstring r3
                                    ((65536 + (uni - 55296) * 1024
                                      + (uni2 - 56320))%N :: acc)
                                else scanstring r2 (uni :: acc)
                            end
                          else scanstring r2 (uni :: acc)
                      | b :: u :: _ =>
                          if is_high uni && (b =? 92)%N && (u =? 117)%N
                          then None
                          else scanstring r2 (uni :: acc)
                      | _ => scanstring r2 (uni :: acc)
                      end
                  end
              | _ => None
              end
        end
  end.

Definition digits_to_Z (ds : str) : Z :=
  fold_left (fun a d => (a * 10 + Z.of_N (d - 48))%Z) ds 0%Z.

Section Decoder.

Variable float_of_lexeme : str -> pyfloat.

(** The number pattern: an optional minus sign, then 0 or a digit 1-9
    followed by digits; an optional fraction (a dot and at least one
    digit); an optional exponent (e or E, an optional sign, at least
    one digit).  With neither fraction nor exponent it is an int. *)
Definition scan_number (s : str) : option (value * str) :=
  let '(sign, r0) :=
    match s with
    | c :: r => if (c =? 45)%N then ([45%N], r) else ([], s)
    | [] => ([], s)
    end in
  match r0 with
  | [] => None
  | d :: r1 =>
      if negb (is_digit d) then None
      else
        let '(int_digits, r2) :=
          if (d =? 48)%N then ([d], r1)
          else let (ds, r) := span is_digit r1 in (d :: ds, r) in
        let '(frac, r3) :=
          match r2 with
          | dot :: r =>
              if (dot =? 46)%N then
                match span is_digit r with
                | ([], _) => ([], r2)
                | (fs, r') => (dot :: fs, r')
                end
              else ([], r2)
          | [] => ([], r2)
          end in
        let '(exp, r4) :=
          match r3 with
          | e :: r =>
              if ((e =? 101) || (e =? 69))%N then
                let '(sg, r') :=
                  match r with
                  | c :: r'' =>
                      if ((c =? 43) || (c =? 45))%N then ([c], r'')
                      else ([], r)
                  | [] => ([], r)
                  end in
                match span is_digit r' with
                | ([], _) => ([], r3)
                | (es, r'') => (e :: sg ++ es, r'')
                end
              else ([], r3)
          | [] => ([], r3)
          end in
        match frac, exp with
        | [], [] =>
            let n := digits_to_Z int_digits in
            Some (VInt (match sign with [] => n | _ => (- n)%Z end), r4)
        | _, _ =>
            Some (VFloat (float_of_lexeme (sign ++ int_digits ++ frac ++ exp)),
                  r4)
        end
  end.

Definition strip_prefix (p s : str) : option str :=
  if startswith s p then Some (skipn (List.length p) s) else None.

Definition NAN : pyfloat :=
  {| float_truthy := true; float_str := lit "nan" |}.
Definition INF : pyfloat :=
  {| float_truthy := true; float_str := lit "inf" |}.
Definition NEG_INF : pyfloat :=
  {| float_truthy := true; float_str := lit "-inf" |}.

Definition scan_constant (s : str) : option (value * str) :=
  match strip_prefix (lit "null") s with
  | Some r => Some (VNone, r)
  | None =>
  match strip_prefix (lit "true") s with
  | Some r => Some (VBool true, r)
  | None =>
  match strip_prefix (lit "false") s with
  | Some r => Some (VBool false, r)
  | None =>
  match strip_prefix (lit "NaN") s with
  | Some r => Some (VFloat NAN, r)
  | None =>
  match strip_prefix (lit "Infinity") s with
  | Some r => Some (VFloat INF, r)
  | None =>
  match strip_prefix (lit "-Infinity") s with
  | Some r => Some (VFloat NEG_INF, r)
  | None => scan_number s
  end end end end end end.

(** [scan_once] with the loops of the object and the array scanner;
    [fuel] bounds the number of nested calls. *)
Fixpoint scan_once (fuel : nat) (s : str) : option (value * str) :=
  match fuel with
  | O => None
  | S fuel' =>
      match s with
      | [] => None
      | c :: r =>
          if (c =? 34)%N then
            match scanstring r [] with
            | Some (x, r') => Some (VStr x, r')
            | None => None
            end
          else if (c =? 123)%N then
            match skip_ws r with
            | c' :: r' =>
                if (c' =? 125)%N then Some (VDict [], r')
                else scan_members fuel' (c' :: r') []
            | [] => None
            end
          else if (c =? 91)%N then
            match skip_ws r with
            | c' :: r' =>
                if (c' =? 93)%N then Some (VList [], r')
                else scan_elements fuel' (c' :: r') []
            | [] => None
            end
          else scan_constant s
      end
  end
with scan_members (fuel : nat) (s : str) (acc : list (str * value))
  : option (value * str) :=
  match fuel with
  | O => None
  | S fuel' =>
      match s with
      | q :: r =>
          if negb (q =? 34)%N then None
          else
            match scanstring r [] with
            | None => None
            | Some (key, r1) =>
                match skip_ws r1 with
                | colon :: r2 =>
                    if negb (colon =? 58)%N then None
                    else
                      match scan_once fuel' (skip_ws r2) with
                      | None => None
                      | Some (v, r3) =>
                          let acc' := dict_set acc key v in
                          match skip_ws r3 with
                          | d :: r4 =>
                              if (d =? 125)%N then Some (VDict acc', r4)
                              else if (d =? 44)%N then
                                scan_members fuel' (skip_ws r4) acc'
                              else None
                          | [] => None
                          end
                      end
                | [] => None
                end
            end
      | [] => None
      end
  end
with scan_elements (fuel : nat) (s : str) (acc : list value)
  : option (value * str) :=
  match fuel with
  | O => None
  | S fuel' =>
      match scan_once fuel' s with
      | None => None
      | Some (v, r) =>
          match skip_ws r with
          | d :: r' =>
              if (d =? 93)%N then Some (VList (rev (v :: acc)), r')
              else if (d =? 44)%N then
                scan_elements fuel' (skip_ws r') (v :: acc)
              else None
          | [] => None
          end
      end
  end.

Definition json_loads (s : str) : result value :=
  if startswith s [65279%N] then Raise JSONDecodeError
  else
    match scan_once (2 * List.length s + 2) (skip_ws s) with
    | Some (v, r) =>
        match skip_ws r with
        | [] => Ok v
        | _ :: _ => Raise JSONDecodeError
        end
    | None => Raise JSONDecodeError
    end.

End Decoder.

(** Floats do not occur in the examples; any conversion will do there. *)
Definition no_float (lexeme : str) : pyfloat :=
  {| float_truthy := true; float_str := lexeme |}.

End JsonRef.

(* ================================================================== *)
(** ** [src/backend/utils/intro_loader.py] *)
(* ================================================================== *)

(** The double quote, which a literal cannot hold. *)
Definition dq : str := [34%N].

(** The module state: what opening and reading [Intro.json] gives, and the
    module-level [_intro_cache] ([None] until the first load). *)
Record Loader := {
  intro_file : result str;
  _intro_cache : option (list (str * str))
}.

Section IntroLoader.

Variable json_loads : str -> result value.    (* json.loads *)
Variable py_repr : value -> str.              (* repr of a list or dict *)

(** [str(v)] *)
Definition py_str (v : value) : str :=
  match v with
  | VStr s => s
  | VNone => lit "None"
  | VBool true => lit "True"
  | VBool false => lit "False"
  | VInt n => lit (NilZero.string_of_int (Z.to_int n))
  | VFloat f => float_str f
  | VList _ | VDict _ => py_repr v
  end.

(** The loop over the items of the file. *)
Fixpoint fill_cache (items : list value) (cache : list (str * str))
  : result (list (str * str)) :=
  match items with
  | [] => Ok cache
  | item :: rest =>
      let? id := method_get item (lit "id") VNone in
      let douban_id := strip (py_str (py_or id (VStr []))) in
      let? intro := method_get item (lit "introduction") VNone in
      let? introduction := method_strip (py_or intro (VStr [])) in
      fill_cache rest
        (if str_eqb douban_id [] then cache
         else dict_set cache douban_id introduction)
  end.

Definition _build_intro_cache (file : result str)
  : result (list (str * str)) :=
  match (let? content := file in json_loads content) with
  | Raise FileNotFoundError => Ok []
  | Raise JSONDecodeError => Ok []
  | Raise e => Raise e
  | Ok data =>
      let items := match data with VList l => l | _ => [] end in
      fill_cache items []
  end.

Definition load_intro_cache (force_refresh : bool) (st : Loader)
  : Loader * result (list (str * str)) :=
  match force_refresh, _intro_cache st with
  | false, Some cache => (st, Ok cache)
  | _, _ =>
      match _build_intro_cache (intro_file st) with
      | Ok cache =>
          ({| intro_file := intro_file st; _intro_cache := Some cache |},
           Ok cache)
      | Raise e => (st, Raise e)
      end
  end.

Definition get_movie_introduction (douban_id : value) (st : Loader)
  : Loader * result str :=
  if negb (truthy douban_id) then (st, Ok [])
  else
    match load_intro_cache false st with
    | (st', Ok cache) => (st', Ok (dict_get cache (py_str douban_id) []))
    | (st', Raise e) => (st', Raise e)
    end.

End IntroLoader.

(* ================================================================== *)
(** ** [src/database/db_manager.py]: listing and credentials *)
(* ================================================================== *)




(** [v == s] for a value and a str *)
Definition py_eq_str (v : value) (s : str) : bool :=
  match v with
  | VStr t => str_eqb t s
  | _ => false
  end.



(** What [check_password_hash] does: a verdict, a [ValueError] for a hash
    it cannot parse, or another exception. *)
Inductive hash_verdict :=
| Verdict (b : bool)
| HashValueError
| HashError (e : exn).

Section Catalog.

(** The data store, for statements run with a tuple of parameter values:
    [execute_query(query, params, fetch_one=True)], which returns the first
    row or [None]; [execute_query(query, params)], which returns all rows;
    and [execute_update(query, params)], which commits and returns the row
    count, or rolls back and raises. *)
Variable Env : Type.
Variable fetch_one :
  str -> list value -> Env -> Env * result (option (list (str * value))).
Variable fetch_all :
  str -> list value -> Env -> Env * result (list value).
Variable execute_update :
  str -> list value -> Env -> Env * result Z.

(** werkzeug's [check_password_hash] *)
Variable check_password_hash : str -> str -> hash_verdict.

(** *** [get_movies] *)






(** *** Credentials *)

Definition USER_QUERY : str := Eval cbv in lit
  "SELECT user_id, username, email, password, last_login, created_at FROM ".
Definition USER_QUERY_TAIL : str := Eval cbv in lit
  " WHERE LOWER(username) = LOWER(%s) LIMIT 1".

(** The statement of [get_user_by_username]; the table name is quoted. *)
Definition user_query : str :=
  USER_QUERY ++ dq ++ lit "user" ++ dq ++ USER_QUERY_TAIL.

Definition last_login_update : str :=
  lit "UPDATE " ++ dq ++ lit "user" ++ dq
    ++ lit " SET last_login = CURRENT_TIMESTAMP WHERE user_id = %s".

Definition get_user_by_username (username : str)
  : Env -> Env * result (option (list (str * value))) :=
  fetch_one user_query [VStr username].

Definition _is_password_hash (v : value) : result bool :=
  if negb (truthy v) then Ok false
  else
    match v with
    | VStr s =>
        Ok (startswith s (lit "pbkdf2:") || startswith s (lit "scrypt:"))
    | _ => Raise AttributeError
    end.

(** Only a [ValueError] of the hash check is caught; the comparison as
    plain text is then the answer. *)
Definition _verify_password (stored_password : value)
  (provided_password : str) : result bool :=
  let? is_hash := _is_password_hash stored_password in
  if is_hash then
    match stored_password with
    | VStr s =>
        match check_password_hash s provided_password with
        | Verdict b => Ok b
        | HashValueError => Ok (py_eq_str stored_password provided_password)
        | HashError e => Raise e
        end
    | _ => Ok (py_eq_str stored_password provided_password)
    end
  else Ok (py_eq_str stored_password provided_password).

Definition _sanitize_user_record (user : list (str * value))
  : list (str * value) :=
  [ (lit "user_id", dict_get user (lit "user_id") VNone);
    (lit "username", dict_get user (lit "username") VNone);
    (lit "email", dict_get user (lit "email") VNone);
    (lit "last_login", dict_get user (lit "last_login") VNone);
    (lit "created_at", dict_get user (lit "created_at") VNone) ].

(** An error of the update is logged and dropped. *)
Definition _update_last_login (user_id : value) : Env -> Env :=
  fun e => fst (execute_update last_login_update [user_id] e).

Definition verify_user_credentials (username password : str)
  : Env -> Env * result (option (list (str * value))) :=
  fun e =>
    match get_user_by_username username e with
    | (e1, Raise err) => (e1, Raise err)
    | (e1, Ok None) | (e1, Ok (Some [])) => (e1, Ok None)
    | (e1, Ok (Some user)) =>
        match (let? stored := getitem_key (VDict user) (lit "password") in
               _verify_password stored password) with
        | Raise err => (e1, Raise err)
        | Ok false => (e1, Ok None)
        | Ok true =>
            match getitem_key (VDict user) (lit "user_id") with
            | Raise err => (e1, Raise err)
            | Ok user_id =>
                (_update_last_login user_id e1,
                 Ok (Some (_sanitize_user_record user)))
            end
        end
    end.

End Catalog.

(* ================================================================== *)
(** ** Notions used in the statements *)
(* ================================================================== *)

(** The statements [ai_search] may hand to the store: the fixed statement
    of [search_movies], or a generated statement that passed the check of
    [_execute_ai_sql] (run without parameters). *)
Definition allowed_statement (upper_cp : N -> str) (q : str * list str)
  : Prop :=
  fst q = SEARCH_QUERY
  \/ (is_select upper_cp (fst q) = true /\ snd q = []).

(** The log of [w'] extends the log of [w] by allowed statements only. *)
Definition log_extension (upper_cp : N -> str) {Env : Type}
  (w w' : World Env) : Prop :=
  exists l, executed w' = executed w ++ l
            /\ Forall (allowed_statement upper_cp) l.

(** A computation that only ever extends the log by allowed statements. *)
Definition keeps_log (upper_cp : N -> str) {Env A : Type} (m : M Env A)
  : Prop :=
  forall w, log_extension upper_cp w (fst (m w)).

(** The world after [query] ran with [params] and left the store in [e]. *)
Definition after_query {Env : Type} (w : World Env) (e : Env)
  (query : str) (params : list str) : World Env :=
  {| env := e;
     executed := executed w ++ [(query, params)];
     posted := posted w |}.

(** [k] is the first index of [response] from which the upper-cased text
    starts with [SELECT]. *)
Definition first_select (upper_cp : N -> str) (response : str) (k : nat)
  : Prop :=
  startswith (upper upper_cp (skipn k response)) SELECT = true
  /\ forall j, (j < k)%nat ->
               startswith (upper upper_cp (skipn j response)) SELECT = false.

(** Upper-casing keeps the positions of a text when every code point maps
    to a single code point. *)
Definition keeps_positions (upper_cp : N -> str) (s : str) : Prop :=
  Forall (fun c => List.length (upper_cp c) = 1%nat) s.

(** What Unicode guarantees of upper-casing and white space: a white-space
    character is its own upper case, and the upper case of any other
    character is a non-empty text without white space. *)
Definition respects_space (upper_cp : N -> str) : Prop :=
  forall c,
    if isspace c then upper_cp c = [c]
    else upper_cp c <> [] /\ forallb (fun d => negb (isspace d)) (upper_cp c)
                            = true.

(** The last steps of the text scan on a candidate: [strip()], then
    [rstrip(',')], then the check of the leading verb. *)
Definition accept_candidate (upper_cp : N -> str) (sql_candidate : str)
  : option str * str :=
  let sql_candidate := rstrip_chars (lit ",") (strip sql_candidate) in
  if startswith (upper upper_cp sql_candidate) SELECT
  then (Some sql_candidate, lit "从文本中提取的查询")
  else (None, lit "无法解析AI响应").

(** The text scan as the specification words it: cut the candidate at the
    terminator that occurs at the earliest position. *)
Definition earliest (a b : option nat) : option nat :=
  match a, b with
  | Some x, Some y => Some (Nat.min x y)
  | Some x, None => Some x
  | None, b => b
  end.

Definition earliest_terminator (s : str) : option nat :=
  fold_right (fun t acc => earliest (find_nat s t) acc) None TERMINATORS.

Definition spec_extract_sql_from_text (upper_cp : N -> str) (response : str)
  : option str * str :=
  match find_nat (upper upper_cp response) SELECT with
  | Some k =>
      let sql_candidate := skipn k response in
      accept_candidate upper_cp
        (match earliest_terminator sql_candidate with
         | Some i => firstn i sql_candidate
         | None => sql_candidate
         end)
  | None => (None, lit "无法解析AI响应")
  end.

(** The columns of a row of [search_movies]. *)
Definition MOVIE_SUMMARY_FIELDS : list str :=
  [lit "movie_id"; lit "rank"; lit "cn_title"; lit "original_title";
   lit "year"; lit "rating"; lit "poster_url"; lit "directors";
   lit "actors"].

Definition field_set (row : value) : option (list str) :=
  match row with
  | VDict d => Some (keys d)
  | _ => None
  end.

Definition is_movie_summary (row : value) : Prop :=
  field_set row = Some MOVIE_SUMMARY_FIELDS.

(** The fallback result of [ai_search] for a query and its rows. *)
Definition fallback_result (user_input : str) (rows : list value)
  : SearchResult :=
  {| movies := rows;
     sql := lit "SELECT * FROM movie WHERE cn_title ILIKE '%"
              ++ user_input ++ lit "%'";
     interpretation := lit "关键词搜索: " ++ user_input |}.

(** The states of [Intro.json] that yield an empty cache: the file is
    missing, its text is not JSON, or it decodes to something that is not a
    list. *)
Definition degenerate_file (json_loads : str -> result value)
  (file : result str) : Prop :=
  file = Raise FileNotFoundError
  \/ (exists content, file = Ok content
                      /\ json_loads content = Raise JSONDecodeError)
  \/ (exists content data, file = Ok content
                           /\ json_loads content = Ok data
                           /\ isinstance_list data = false).

(** An item of the file as [fetch_movie_intros.py] writes it: an object
    whose introduction, when present and not falsy, is a string. *)
Definition intro_record (item : value) : Prop :=
  exists d, item = VDict d
            /\ (truthy (dict_get d (lit "introduction") VNone) = true ->
                exists s, dict_get d (lit "introduction") VNone = VStr s).

(* ================================================================== *)
(** ** A small store and endpoint to run the pipeline on *)
(* ================================================================== *)

Module Toy.

(** One movie, as [search_movies] returns it. *)
Definition movie_row : value :=
  VDict [ (lit "movie_id", VInt 1);
          (lit "rank", VInt 1);
          (lit "cn_title", VStr (lit "肖申克的救赎"));
          (lit "original_title", VStr (lit "The Shawshank Redemption"));
          (lit "year", VInt 1994);
          (lit "rating", VStr (lit "9.7"));
          (lit "poster_url", VStr (lit "https://img.example/p1.jpg"));
          (lit "directors", VStr (lit "Frank Darabont"));
          (lit "actors", VStr (lit "Tim Robbins, Morgan Freeman")) ].

Definition title_row : value :=
  VDict [ (lit "cn_title", VStr (lit "肖申克的救赎")) ].

(** A store that answers the keyword search with one movie, a projection
    on the title with one narrow row, and rejects every other statement. *)
Definition cursor_execute (query : str) (params : list str) (e : unit)
  : unit * result (list value) :=
  if str_eqb query SEARCH_QUERY then (e, Ok [movie_row])
  else if str_eqb query (lit "SELECT cn_title FROM movie")
  then (e, Ok [title_row])
  else (e, Raise ProgrammingError).

(** The body of a chat completion whose only choice has this content. *)
Definition chat_completion (content : value) : value :=
  VDict [ (lit "choices",
           VList [ VDict [ (lit "index", VInt 0);
                           (lit "message",
                            VDict [ (lit "role", VStr (lit "assistant"));
                                    (lit "content", content) ]) ] ]) ].

(** An endpoint that answers every prompt with status 200 and [content]. *)
Definition requests_post (content : str) (key prompt : str) (e : unit)
  : unit * result http_response :=
  (e, Ok {| status_code := 200;
            text := [];
            json_body := Ok (chat_completion (VStr content)) |}).

Definition json_loads : str -> result value :=
  JsonRef.json_loads JsonRef.no_float.

Definition world0 : World unit :=
  {| env := tt; executed := []; posted := [] |}.

Definition API_KEY : str := lit "sk-test".

(** Two structured responses and a free-text one. *)
Definition response_unknown_column : str :=
  lit "{" ++ dq ++ lit "sql" ++ dq ++ lit ": " ++ dq
    ++ lit "SELECT nope FROM movie" ++ dq ++ lit ", "
    ++ dq ++ lit "interpretation" ++ dq ++ lit ": " ++ dq
    ++ lit "搜索电影" ++ dq ++ lit "}".

Definition response_with_cte : str :=
  lit "{" ++ dq ++ lit "sql" ++ dq ++ lit ": " ++ dq
    ++ lit "WITH t AS (SELECT movie_id FROM movie) SELECT * FROM t"
    ++ dq ++ lit "}".

Definition response_fence_after_break : str :=
  lit "SELECT cn_title FROM movie" ++ [10; 10]%N
    ++ lit "ORDER BY rank" ++ [10]%N ++ lit "```".

(** A structured response that projects the title only. *)
Definition response_title_only : str :=
  lit "{" ++ dq ++ lit "sql" ++ dq ++ lit ": " ++ dq
    ++ lit "SELECT cn_title FROM movie" ++ dq ++ lit ", "
    ++ dq ++ lit "interpretation" ++ dq ++ lit ": " ++ dq
    ++ lit "电影名称" ++ dq ++ lit "}".

(** [repr] of containers is not needed on string identifiers. *)
Definition py_repr (v : value) : str := [].

(** An [Intro.json] with one record. *)
Definition intro_content : str :=
  lit "[{" ++ dq ++ lit "id" ++ dq ++ lit ": " ++ dq ++ lit "1292052" ++ dq
    ++ lit ", " ++ dq ++ lit "name" ++ dq ++ lit ": " ++ dq
    ++ lit "肖申克的救赎" ++ dq ++ lit ", "
    ++ dq ++ lit "introduction" ++ dq ++ lit ": " ++ dq
    ++ lit " 银行家安迪被判终身监禁。 " ++ dq ++ lit "}]".

End Toy.

(* ================================================================== *)
(** ** Further notions and examples *)
(* ================================================================== *)

Definition isinstance_str (v : value) : bool :=
  match v with VStr _ => true | _ => false end.

(** The parser yields no statement on the content [v] of a response:
    it returns the no-statement signal, or it raises, or [v] is not a
    str (then [v.strip()] raises). *)
Definition no_statement (upper_cp : N -> str)
  (json_loads : str -> result value) (v : value) : Prop :=
  match v with
  | VStr response =>
      (exists interp,
          _parse_ai_response upper_cp json_loads response
          = Ok (None, interp))
      \/ (exists e,
             _parse_ai_response upper_cp json_loads response = Raise e)
  | _ => True
  end.

(** The cache key an item of [Intro.json] is stored under. *)
Definition item_key (py_repr : value -> str) (item : value) : str :=
  match item with
  | VDict d =>
      strip (py_str py_repr (py_or (dict_get d (lit "id") VNone) (VStr [])))
  | _ => []
  end.

(** The introduction an item of [Intro.json] is stored with, when its
    introduction is a str or is falsy. *)
Definition item_introduction (item : value) : str :=
  match item with
  | VDict d =>
      match py_or (dict_get d (lit "introduction") VNone) (VStr []) with
      | VStr s => strip s
      | _ => []
      end
  | _ => []
  end.

(** The cursor of [execute_query] is a dict cursor: every row it hands
    back is a dict, whatever the columns. *)
Definition dict_cursor {Env : Type}
  (cursor_execute : str -> list str -> Env -> Env * result (list value))
  : Prop :=
  forall query params e e' rows,
    cursor_execute query params e = (e', Ok rows) ->
    Forall (fun row => isinstance_dict row = true) rows.


(** The five fields of a sanitized user record. *)
Definition USER_FIELDS : list str :=
  [lit "user_id"; lit "username"; lit "email"; lit "last_login";
   lit "created_at"].

Module Demo.

(** An endpoint that is down, and one that times out. *)
Definition requests_post_unavailable (key prompt : str) (e : unit)
  : unit * result http_response :=
  (e, Ok {| status_code := 503; text := lit "Service Unavailable";
            json_body := Raise JSONDecodeError |}).

Definition requests_post_timeout (key prompt : str) (e : unit)
  : unit * result http_response := (e, Raise RequestException).

(** Scenario 4: the model answers with a DELETE. *)
Definition response_delete : str :=
  lit "{" ++ dq ++ lit "sql" ++ dq ++ lit ": " ++ dq
    ++ lit "DELETE FROM movie" ++ dq ++ lit ", "
    ++ dq ++ lit "interpretation" ++ dq ++ lit ": " ++ dq
    ++ lit "删除所有电影" ++ dq ++ lit "}".

(** A response that is JSON but not a record. *)
Definition response_array : str := lit "[1, 2]".

(** Free text with a statement followed by a comma and a fence. *)
Definition response_free_text : str :=
  lit "可以这样查询： select cn_title from movie ,," ++ [10]%N ++ lit "```".

(** An [Intro.json] in which the second record repeats the first id. *)
Definition intro_duplicates : str :=
  lit "[{" ++ dq ++ lit "id" ++ dq ++ lit ": " ++ dq ++ lit "1292052" ++ dq
    ++ lit ", " ++ dq ++ lit "introduction" ++ dq ++ lit ": " ++ dq
    ++ lit "旧简介" ++ dq ++ lit "}, {"
    ++ dq ++ lit "id" ++ dq ++ lit ": " ++ dq ++ lit " 1292052 " ++ dq
    ++ lit ", " ++ dq ++ lit "introduction" ++ dq ++ lit ": " ++ dq
    ++ lit " 新简介 " ++ dq ++ lit "}, {"
    ++ dq ++ lit "id" ++ dq ++ lit ": 1291546, "
    ++ dq ++ lit "introduction" ++ dq ++ lit ": null}]".

(** An [Intro.json] whose second item is not an object. *)
Definition intro_bad_item : str :=
  lit "[{" ++ dq ++ lit "id" ++ dq ++ lit ": " ++ dq ++ lit "1292052" ++ dq
    ++ lit "}, 7]".

(** Users: one with a plain-text password, and one whose stored text has
    a hash prefix but is no hash. *)
Definition user_plain : list (str * value) :=
  [ (lit "user_id", VInt 7); (lit "username", VStr (lit "alice"));
    (lit "email", VStr (lit "alice@example.org"));
    (lit "password", VStr (lit "secret1"));
    (lit "last_login", VNone); (lit "created_at", VStr (lit "2024-01-01")) ].

Definition user_broken_hash : list (str * value) :=
  [ (lit "user_id", VInt 8); (lit "username", VStr (lit "bob"));
    (lit "email", VStr (lit "bob@example.org"));
    (lit "password", VStr (lit "pbkdf2:garbage"));
    (lit "last_login", VNone); (lit "created_at", VStr (lit "2024-01-02")) ].

Definition fetch_one (query : str) (params : list value) (e : unit)
  : unit * result (option (list (str * value))) :=
  match params with
  | [VStr name] =>
      if str_eqb name (lit "alice") then (e, Ok (Some user_plain))
      else if str_eqb name (lit "bob") then (e, Ok (Some user_broken_hash))
      else (e, Ok None)
  | _ => (e, Raise ProgrammingError)
  end.

(** A store on which every update fails. *)
Definition execute_update (query : str) (params : list value) (e : unit)
  : unit * result Z := (e, Raise OperationalError).

(** A hash check under which no password matches, as werkzeug answers
    for a stored text without the two separators of a hash and for a hash
    of another password. *)
Definition check_password_hash (stored provided : str) : hash_verdict :=
  Verdict false.

(** A store with a dict cursor that holds 51 titles and ignores the
    limit of a statement. *)
Definition cursor_execute_many (query : str) (params : list str) (e : unit)
  : unit * result (list value) :=
  if str_eqb query (lit "SELECT cn_title FROM movie LIMIT 51")
  then (e, Ok (repeat Toy.title_row 51))
  else (e, Ok []).

(** An [Intro.json] that is a list, but not of records. *)
Definition intro_numbers : str := lit "[7]".

(** A store that is down. *)
Definition cursor_execute_down (query : str) (params : list str) (e : unit)
  : unit * result (list value) := (e, Raise OperationalError).

(** The items of [intro_duplicates], and the first item of
    [intro_bad_item]. *)
Definition record_old : value :=
  VDict [ (lit "id", VStr (lit "1292052"));
          (lit "introduction", VStr (lit "旧简介")) ].
Definition record_new : value :=
  VDict [ (lit "id", VStr (lit " 1292052 "));
          (lit "introduction", VStr (lit " 新简介 ")) ].
Definition record_other : value :=
  VDict [ (lit "id", VInt 1291546); (lit "introduction", VNone) ].
Definition record_bare : value :=
  VDict [ (lit "id", VStr (lit "1292052")) ].

End Demo.

(* ================================================================== *)
(** ** Facts about the string operations *)
(* ================================================================== *)

Unset Implicit Arguments.

Lemma str_eqb_eq (a b : str) : str_eqb a b = true <-> a = b.
Proof.
  unfold str_eqb. destruct (list_eq_dec N.eq_dec a b); split; congruence.
Qed.

Lemma str_eqb_refl (a : str) : str_eqb a a = true.
Proof. now apply str_eqb_eq. Qed.

Lemma str_eqb_neq (a b : str) : str_eqb a b = false <-> a <> b.
Proof.
  unfold str_eqb. destruct (list_eq_dec N.eq_dec a b); split; congruence.
Qed.

Lemma startswith_app (p r : str) : startswith (p ++ r) p = true.
Proof.
  induction p as [|c p IH]; simpl; [reflexivity|].
  now rewrite N.eqb_refl, IH.
Qed.

Lemma startswith_split (s p : str) :
  startswith s p = true -> exists r, s = p ++ r.
Proof.
  revert s. induction p as [|c p IH]; intros s H.
  - now exists s.
  - destruct s as [|d s]; simpl in H; [discriminate|].
    apply andb_true_iff in H as [Hc Hs].
    apply N.eqb_eq in Hc. subst d.
    destruct (IH _ Hs) as [r ->]. now exists r.
Qed.

Lemma dropwhile_app (f : N -> bool) (a b : str) :
  dropwhile f (a ++ b)
  = if forallb f a then dropwhile f b else dropwhile f a ++ b.
Proof.
  induction a as [|c a IH]; simpl; [reflexivity|].
  destruct (f c); simpl; [exact IH | reflexivity].
Qed.

(** Stripping on the right never reaches past a character that is not
    white space. *)
Lemma rstrip_keeps_prefix (p : str) (c : N) (r : str) :
  isspace c = false ->
  exists r', rstrip ((p ++ [c]) ++ r) = (p ++ [c]) ++ r'.
Proof.
  intros Hc. unfold rstrip.
  rewrite rev_app_distr, dropwhile_app.
  destruct (forallb isspace (rev r)).
  - rewrite rev_app_distr. simpl. rewrite Hc.
    exists []. rewrite app_nil_r.
    change (c :: rev p) with ([c] ++ rev p).
    now rewrite rev_app_distr, rev_involutive.
  - exists (rev (dropwhile isspace (rev r))).
    now rewrite rev_app_distr, rev_involutive.
Qed.

(** A text that starts with [SELECT] still does after [strip()]. *)
Lemma startswith_strip_SELECT (x : str) :
  startswith x SELECT = true -> startswith (strip x) SELECT = true.
Proof.
  intros H. destruct (startswith_split _ _ H) as [r ->].
  unfold strip. replace (lstrip (SELECT ++ r)) with (SELECT ++ r)
    by reflexivity.
  destruct (rstrip_keeps_prefix [83; 69; 76; 69; 67]%N 84%N r eq_refl)
    as [r' Hr'].
  change ([83; 69; 76; 69; 67]%N ++ [84%N]) with SELECT in Hr'.
  rewrite Hr'. apply startswith_app.
Qed.

(** The leading verbs exclude one another. *)
Lemma startswith_other_verb (x verb : str) :
  In verb [INSERT; UPDATE; DELETE; DROP] ->
  startswith x verb = true -> startswith x SELECT = false.
Proof.
  intros Hin H. destruct x as [|c x]; [reflexivity|].
  simpl in Hin.
  destruct Hin as [<-|[<-|[<-|[<-|[]]]]];
    unfold INSERT, UPDATE, DELETE, DROP, SELECT in *;
    cbn [startswith] in H |- *;
    apply andb_true_iff in H as [Hc _]; apply N.eqb_eq in Hc; subst c;
    reflexivity.
Qed.

(** [find_nat] returns the first occurrence, and [None] only when there is
    none. *)
Lemma find_nat_first (s sub : str) (k : nat) :
  first_occurrence s sub k -> find_nat s sub = Some k.
Proof.
  unfold first_occurrence, occurs_at.
  revert k. induction s as [|c s IH]; intros k [Hk Hlt].
  - destruct k as [|k].
    + simpl in *. now rewrite Hk.
    + exfalso. apply (Hlt 0%nat); [lia|]. simpl in *. exact Hk.
  - simpl. destruct (startswith (c :: s) sub) eqn:E.
    + destruct k as [|k]; [reflexivity|].
      exfalso. apply (Hlt 0%nat); [lia|]. exact E.
    + destruct k as [|k]; [simpl in Hk; congruence|].
      rewrite (IH k); [reflexivity|].
      split; [exact Hk|].
      intros j Hj Hocc. apply (Hlt (S j)); [lia|exact Hocc].
Qed.

Lemma find_nat_absent (s sub : str) :
  absent s sub -> find_nat s sub = None.
Proof.
  unfold absent, occurs_at.
  induction s as [|c s IH]; intros H.
  - simpl. destruct (startswith [] sub) eqn:E; [|reflexivity].
    exfalso. now apply (H 0%nat).
  - simpl. destruct (startswith (c :: s) sub) eqn:E.
    + exfalso. now apply (H 0%nat).
    + rewrite IH; [reflexivity|].
      intros j Hj. now apply (H (S j)).
Qed.

Lemma find_nat_sound (s sub : str) (k : nat) :
  find_nat s sub = Some k -> first_occurrence s sub k.
Proof.
  unfold first_occurrence, occurs_at.
  revert k. induction s as [|c s IH]; intros k H.
  - simpl in H. destruct (startswith [] sub) eqn:E; [|discriminate].
    injection H as <-. split; [exact E|]. intros j Hj. lia.
  - simpl in H. destruct (startswith (c :: s) sub) eqn:E.
    + injection H as <-. split; [exact E|]. intros j Hj. lia.
    + destruct (find_nat s sub) as [k'|] eqn:F; [|discriminate].
      injection H as <-. destruct (IH k' eq_refl) as [H1 H2].
      split; [exact H1|].
      intros [|j] Hj; simpl; [congruence|].
      apply H2. lia.
Qed.

Lemma contains_app (a sub c : str) : contains (a ++ sub ++ c) sub = true.
Proof.
  unfold contains. induction a as [|x a IH].
  - simpl. destruct (sub ++ c) eqn:E; simpl;
      rewrite <- E, startswith_app; reflexivity.
  - simpl. destruct (startswith (x :: a ++ sub ++ c) sub); [reflexivity|].
    destruct (find_nat (a ++ sub ++ c) sub); [reflexivity|discriminate].
Qed.

(* ================================================================== *)
(** ** The response parser and the executor *)
(* ================================================================== *)

(** *** [strip()] and [upper()] commute *)

Lemma rstrip_snoc (s : str) (c : N) :
  rstrip (s ++ [c]) = if isspace c then rstrip s else s ++ [c].
Proof.
  unfold rstrip. rewrite rev_app_distr. cbn [rev app dropwhile].
  destruct (isspace c); [reflexivity|].
  cbn [rev]. now rewrite rev_involutive.
Qed.

Lemma rstrip_app_nonspace (x y : str) :
  y <> [] -> forallb (fun d => negb (isspace d)) y = true ->
  rstrip (x ++ y) = x ++ y.
Proof.
  intros Hne Hall.
  destruct (exists_last Hne) as [y' [d ->]].
  rewrite forallb_app in Hall. apply andb_true_iff in Hall as [_ Hd].
  cbn [forallb] in Hd. rewrite andb_true_r in Hd.
  apply negb_true_iff in Hd.
  rewrite app_assoc, rstrip_snoc. now rewrite Hd.
Qed.

Section StripUpper.

Variable upper_cp : N -> str.
Hypothesis Hspace : respects_space upper_cp.

Lemma lstrip_upper (s : str) :
  lstrip (upper upper_cp s) = upper upper_cp (lstrip s).
Proof.
  unfold lstrip, upper. induction s as [|c s IH]; [reflexivity|].
  cbn [flat_map dropwhile]. specialize (Hspace c).
  destruct (isspace c) eqn:Ec.
  - rewrite Hspace. cbn [app dropwhile]. now rewrite Ec.
  - destruct Hspace as [Hne Hall].
    destruct (upper_cp c) as [|d ds] eqn:Eu; [congruence|].
    cbn [forallb] in Hall. apply andb_true_iff in Hall as [Hd _].
    apply negb_true_iff in Hd.
    cbn [app dropwhile flat_map]. now rewrite Hd, Eu.
Qed.

Lemma rstrip_upper (s : str) :
  rstrip (upper upper_cp s) = upper upper_cp (rstrip s).
Proof.
  unfold upper. induction s as [|c s IH] using rev_ind; [reflexivity|].
  rewrite flat_map_app, rstrip_snoc. cbn [flat_map].
  rewrite app_nil_r. specialize (Hspace c).
  destruct (isspace c) eqn:Ec.
  - rewrite Hspace, rstrip_snoc, Ec. exact IH.
  - destruct Hspace as [Hne Hall].
    rewrite rstrip_app_nonspace by assumption.
    rewrite flat_map_app. cbn [flat_map]. now rewrite app_nil_r.
Qed.

(** Trimming before or after upper-casing gives the same text, so the
    check of the executor reads the same in either order. *)
Lemma strip_upper (s : str) :
  strip (upper upper_cp s) = upper upper_cp (strip s).
Proof. unfold strip. now rewrite lstrip_upper, rstrip_upper. Qed.

Lemma is_select_strip_first (sql_query : str) :
  is_select upper_cp sql_query
  = startswith (upper upper_cp (strip sql_query)) SELECT.
Proof. unfold is_select. now rewrite strip_upper. Qed.

End StripUpper.

Lemma ascii_respects_space : respects_space ascii_upper_cp.
Proof.
  intros c. unfold ascii_upper_cp.
  destruct (isspace c) eqn:Es.
  - destruct ((97 <=? c) && (c <=? 122))%N eqn:E; [|reflexivity].
    exfalso. apply andb_true_iff in E as [E1 E2].
    apply N.leb_le in E1, E2. unfold isspace in Es.
    repeat (apply orb_true_iff in Es as [Es|Es]);
      repeat match goal with
             | H : (_ && _)%bool = true |- _ =>
                 apply andb_true_iff in H as [? ?]
             | H : (_ <=? _)%N = true |- _ => apply N.leb_le in H
             | H : (_ =? _)%N = true |- _ => apply N.eqb_eq in H
             end; lia.
  - destruct ((97 <=? c) && (c <=? 122))%N eqn:E.
    + split; [discriminate|]. cbn [forallb]. rewrite andb_true_r.
      apply negb_true_iff.
      apply andb_true_iff in E as [E1 E2]. apply N.leb_le in E1, E2.
      unfold isspace.
      repeat (apply orb_false_iff; split);
        try (apply andb_false_iff; right; apply N.leb_gt; lia);
        try (apply andb_false_iff; left; apply N.leb_gt; lia);
        try (apply N.eqb_neq; lia).
    + split; [discriminate|]. cbn [forallb]. now rewrite Es.
Qed.

Lemma rcatch_other {A} (body : result A) (E : exn) (handler : result A) :
  (forall e, body = Raise e -> e <> E) -> rcatch body E handler = body.
Proof.
  intros H. destruct body as [a|e]; [reflexivity|].
  simpl. destruct (exn_eqb e E) eqn:Ee; [|reflexivity].
  exfalso. apply (H e eq_refl). destruct e, E; try discriminate; reflexivity.
Qed.

Section ParserFacts.

Variable upper_cp : N -> str.
Variable json_loads : str -> result value.

Local Abbreviation parse := (_parse_ai_response upper_cp json_loads).

Lemma extract_sql_from_text_accept (response : str) (k : nat) :
  find_nat (upper upper_cp response) SELECT = Some k ->
  extract_sql_from_text upper_cp response
  = accept_candidate upper_cp
      (cut_at_terminator (skipn k response) TERMINATORS).
Proof.
  intros Hk. unfold extract_sql_from_text, accept_candidate, find.
  rewrite Hk.
  replace (negb (Z.of_nat k =? -1)%Z) with true
    by (symmetry; apply negb_true_iff, Z.eqb_neq; lia).
  unfold slice_from, slice_index.
  replace (Z.of_nat k <? 0)%Z with false by (symmetry; apply Z.ltb_ge; lia).
  now rewrite Nat2Z.id.
Qed.

Lemma extract_sql_from_text_none (response : str) :
  find_nat (upper upper_cp response) SELECT = None ->
  extract_sql_from_text upper_cp response = (None, lit "无法解析AI响应").
Proof.
  intros Hk. unfold extract_sql_from_text, find. now rewrite Hk.
Qed.

Lemma accept_candidate_select (c sql interp : str) :
  accept_candidate upper_cp c = (Some sql, interp) ->
  startswith (upper upper_cp sql) SELECT = true.
Proof.
  unfold accept_candidate.
  destruct (startswith (upper upper_cp (rstrip_chars (lit ",") (strip c)))
              SELECT) eqn:E; intros H; inversion H; subst; exact E.
Qed.

Lemma extract_sql_from_text_select (response sql interp : str) :
  extract_sql_from_text upper_cp response = (Some sql, interp) ->
  startswith (upper upper_cp sql) SELECT = true.
Proof.
  destruct (find_nat (upper upper_cp response) SELECT) as [k|] eqn:Hk.
  - rewrite (extract_sql_from_text_accept _ _ Hk).
    apply accept_candidate_select.
  - rewrite (extract_sql_from_text_none _ Hk). discriminate.
Qed.

(** How the structured branch ends, for a response that decodes. *)
Lemma parse_decoded (response : str) (parsed : value) :
  json_loads (strip response) = Ok parsed ->
  parse response
  = (let? sql_field := method_get parsed (lit "sql") (VStr []) in
     let? sql := method_strip sql_field in
     let? interp_field :=
       method_get parsed (lit "interpretation")
                  (VStr (lit "AI生成的查询")) in
     let? interpretation := method_strip interp_field in
     if negb (str_eqb sql []) && startswith (upper upper_cp sql) SELECT
     then Ok (Some sql, interpretation)
     else Ok (None, interpretation)).
Proof.
  intros H. unfold _parse_ai_response. rewrite H. cbn [rbind].
  apply rcatch_other. intros e He.
  destruct parsed; cbn [method_get rbind] in He;
    try (injection He as <-; discriminate).
  destruct (dict_get d (lit "sql") (VStr [])); cbn [method_strip rbind] in He;
    try (injection He as <-; discriminate).
  destruct (dict_get d (lit "interpretation") (VStr (lit "AI生成的查询")));
    cbn [method_strip rbind] in He;
    try (injection He as <-; discriminate).
  destruct (negb (str_eqb (strip s) [])
            && startswith (upper upper_cp (strip s)) SELECT); discriminate.
Qed.

Lemma parse_not_json (response : str) :
  json_loads (strip response) = Raise JSONDecodeError ->
  parse response = Ok (extract_sql_from_text upper_cp response).
Proof.
  intros H. unfold _parse_ai_response. now rewrite H.
Qed.

Lemma parse_other_error (response : str) (e : exn) :
  json_loads (strip response) = Raise e -> e <> JSONDecodeError ->
  parse response = Raise e.
Proof.
  intros H Hne. unfold _parse_ai_response. rewrite H.
  unfold rbind, rcatch. destruct e; try reflexivity. congruence.
Qed.

(** Whatever the parser returns as a statement starts with [SELECT] once
    upper-cased. *)
Lemma parse_returns_select (response sql interp : str) :
  parse response = Ok (Some sql, interp) ->
  startswith (upper upper_cp sql) SELECT = true.
Proof.
  destruct (json_loads (strip response)) as [parsed|e] eqn:Hj.
  - rewrite (parse_decoded _ _ Hj).
    destruct (method_get parsed (lit "sql") (VStr [])) as [v1|]; [|discriminate].
    cbn [rbind].
    destruct (method_strip v1) as [s1|]; [|discriminate]. cbn [rbind].
    destruct (method_get parsed _ _) as [v3|]; [|discriminate]. cbn [rbind].
    destruct (method_strip v3) as [s3|]; [|discriminate]. cbn [rbind].
    destruct (negb (str_eqb s1 [])); cbn [andb]; [|discriminate].
    destruct (startswith (upper upper_cp s1) SELECT) eqn:E; [|discriminate].
    intros H. inversion H; subst. exact E.
  - destruct (exn_eqb e JSONDecodeError) eqn:Ee.
    + assert (e = JSONDecodeError) as -> by (destruct e; try discriminate; reflexivity).
      rewrite (parse_not_json _ Hj). intros H. inversion H as [H'].
      eapply extract_sql_from_text_select; eauto.
    + rewrite (parse_other_error _ e Hj); [discriminate|].
      intros ->. discriminate.
Qed.

End ParserFacts.

Section TextScan.

Variable upper_cp : N -> str.
Variable json_loads : str -> result value.

Local Abbreviation parse := (_parse_ai_response upper_cp json_loads).
Local Abbreviation accept := (accept_candidate upper_cp).

Lemma upper_skipn (s : str) (k : nat) :
  keeps_positions upper_cp s ->
  skipn k (upper upper_cp s) = upper upper_cp (skipn k s).
Proof.
  unfold keeps_positions. revert k.
  induction s as [|c s IH]; intros k H.
  - now destruct k.
  - destruct k as [|k]; [reflexivity|].
    inversion H as [|? ? Hc Hs]; subst.
    unfold upper in *. cbn [flat_map skipn].
    destruct (upper_cp c) as [|d [|d' ds]]; try discriminate.
    cbn [app skipn]. now apply IH.
Qed.

Lemma first_select_find (response : str) (k : nat) :
  keeps_positions upper_cp response ->
  first_select upper_cp response k ->
  find_nat (upper upper_cp response) SELECT = Some k.
Proof.
  intros Hlen [Hk Hlt]. apply find_nat_first. split.
  - unfold occurs_at. now rewrite upper_skipn.
  - intros j Hj. unfold occurs_at. rewrite upper_skipn by assumption.
    rewrite (Hlt j Hj). discriminate.
Qed.

Lemma slice_to_nat (s : str) (i : nat) :
  slice_to s (Z.of_nat i) = firstn i s.
Proof.
  unfold slice_to, slice_index.
  replace (Z.of_nat i <? 0)%Z with false by (symmetry; apply Z.ltb_ge; lia).
  now rewrite Nat2Z.id.
Qed.

Lemma cut_at_first (s t : str) (rest : list str) (i : nat) :
  first_occurrence s t i ->
  cut_at_terminator s (t :: rest) = firstn i s.
Proof.
  intros H. cbn [cut_at_terminator]. unfold find.
  rewrite (find_nat_first _ _ _ H).
  replace (negb (Z.of_nat i =? -1)%Z) with true
    by (symmetry; apply negb_true_iff, Z.eqb_neq; lia).
  apply slice_to_nat.
Qed.

Lemma cut_at_absent (s t : str) (rest : list str) :
  absent s t ->
  cut_at_terminator s (t :: rest) = cut_at_terminator s rest.
Proof.
  intros H. cbn [cut_at_terminator]. unfold find.
  now rewrite (find_nat_absent _ _ H).
Qed.

(** C6, amended.  For a response that is not JSON, on which upper-casing
    keeps positions, and whose first case-insensitive occurrence of SELECT
    is at index [k], the parser takes the text from [k] up to the first
    code fence when the text has one; without a fence, up to the first
    double line feed; without either, up to the first double CR LF;
    without any, to the end.  A code fence wins over a double line break
    also when the line break comes earlier.  The candidate is stripped of
    surrounding white space and then of trailing commas, and is returned
    if its upper-cased text starts with SELECT. *)
Theorem text_scan_cuts_by_priority (response : str) (k : nat) :
  json_loads (strip response) = Raise JSONDecodeError ->
  keeps_positions upper_cp response ->
  first_select upper_cp response k ->
  let rest := skipn k response in
  let outcome := _parse_ai_response upper_cp json_loads response in
  (forall i, first_occurrence rest FENCE i ->
             outcome = Ok (accept_candidate upper_cp (firstn i rest)))
  /\ (absent rest FENCE ->
      forall i, first_occurrence rest DOUBLE_LF i ->
                outcome = Ok (accept_candidate upper_cp (firstn i rest)))
  /\ (absent rest FENCE -> absent rest DOUBLE_LF ->
      forall i, first_occurrence rest DOUBLE_CRLF i ->
                outcome = Ok (accept_candidate upper_cp (firstn i rest)))
  /\ (absent rest FENCE -> absent rest DOUBLE_LF ->
      absent rest DOUBLE_CRLF ->
      outcome = Ok (accept_candidate upper_cp rest)).
Proof.
  intros Hjson Hlen Hk rest outcome. subst outcome.
  rewrite (parse_not_json upper_cp json_loads response Hjson).
  rewrite (extract_sql_from_text_accept upper_cp response k
             (first_select_find _ _ Hlen Hk)).
  fold rest. unfold TERMINATORS.
  split; [|split; [|split]].
  - intros i Hi. now rewrite (cut_at_first _ _ _ _ Hi).
  - intros Hf i Hi. now rewrite (cut_at_absent _ _ _ Hf), (cut_at_first _ _ _ _ Hi).
  - intros Hf Hl i Hi.
    now rewrite (cut_at_absent _ _ _ Hf), (cut_at_absent _ _ _ Hl),
      (cut_at_first _ _ _ _ Hi).
  - intros Hf Hl Hc.
    now rewrite (cut_at_absent _ _ _ Hf), (cut_at_absent _ _ _ Hl),
      (cut_at_absent _ _ _ Hc).
Qed.

(** C7, amended.  For a response that decodes to a record whose [sql] and
    [interpretation] fields are strings (or are missing), and whose
    trimmed [sql] is empty or does not start with SELECT once upper-cased,
    the parser returns the no-statement signal with the record's trimmed
    interpretation at once; it does not scan the raw text. *)
Theorem invalid_sql_field_returns_none (response : str)
  (d : list (str * value)) (s i : str) :
  json_loads (strip response) = Ok (VDict d) ->
  dict_get d (lit "sql") (VStr []) = VStr s ->
  dict_get d (lit "interpretation") (VStr (lit "AI生成的查询")) = VStr i ->
  strip s = [] \/ startswith (upper upper_cp (strip s)) SELECT = false ->
  _parse_ai_response upper_cp json_loads response = Ok (None, strip i).
Proof.
  intros Hjson Hs Hi Hbad.
  rewrite (parse_decoded upper_cp json_loads response _ Hjson).
  cbn [method_get rbind]. rewrite Hs. cbn [method_strip rbind].
  rewrite Hi. cbn [method_strip rbind].
  destruct Hbad as [-> | ->]; [reflexivity|].
  now rewrite andb_false_r.
Qed.

End TextScan.

Section PipelineFacts.

Variable upper_cp : N -> str.
Variable json_loads : str -> result value.
Variable Env : Type.
Variable cursor_execute :
  str -> list str -> Env -> Env * result (list value).
Variable requests_post :
  str -> str -> Env -> Env * result http_response.
Variable DEEPSEEK_API_KEY : str.
Variables PROMPT_HEAD PROMPT_TAIL : str.

Local Abbreviation parse := (_parse_ai_response upper_cp json_loads).
Local Abbreviation run_sql := (_execute_ai_sql upper_cp cursor_execute).
Local Abbreviation keyword_search := (search_movies cursor_execute).
Local Abbreviation call_api :=
  (_call_deepseek_api requests_post DEEPSEEK_API_KEY).
Local Abbreviation fallback := (keyword_fallback cursor_execute).
Local Abbreviation search :=
  (ai_search upper_cp json_loads cursor_execute requests_post
             DEEPSEEK_API_KEY PROMPT_HEAD PROMPT_TAIL).
Local Abbreviation keeps := (@keeps_log upper_cp Env).

Lemma is_select_of_upper (sql_query : str) :
  startswith (upper upper_cp sql_query) SELECT = true ->
  is_select upper_cp sql_query = true.
Proof. apply startswith_strip_SELECT. Qed.

Lemma is_select_nonempty (sql_query : str) :
  is_select upper_cp sql_query = true -> sql_query <> [].
Proof. intros H ->. discriminate H. Qed.

(** *** The executor, case by case *)

Lemma execute_rejects (sql_query : str) (w : World Env) :
  is_select upper_cp sql_query = false -> run_sql sql_query w = (w, Ok []).
Proof.
  intros H. unfold _execute_ai_sql, try_except. rewrite H.
  now rewrite orb_true_r.
Qed.

Lemma execute_runs (sql_query : str) (w : World Env) :
  is_select upper_cp sql_query = true ->
  run_sql sql_query w
  = (after_query w (fst (cursor_execute sql_query [] (env w))) sql_query [],
     Ok match snd (cursor_execute sql_query [] (env w)) with
        | Ok (first :: rest) =>
            if isinstance_dict first then firstn 50 (first :: rest)
            else first :: rest
        | _ => []
        end).
Proof.
  intros H. pose proof (is_select_nonempty _ H) as Hne.
  apply str_eqb_neq in Hne.
  unfold _execute_ai_sql, try_except. rewrite H, Hne. cbn [orb negb].
  unfold bind, execute_query, after_query.
  destruct (cursor_execute sql_query [] (env w)) as [e' [rows|err]];
    cbn [fst snd]; [|reflexivity].
  destruct rows as [|first rest]; [reflexivity|].
  destruct (isinstance_dict first); reflexivity.
Qed.

(** *** The log of executed statements *)

Lemma log_extension_refl (w : World Env) : log_extension upper_cp w w.
Proof. exists []. now rewrite app_nil_r. Qed.

Lemma log_extension_trans (w1 w2 w3 : World Env) :
  log_extension upper_cp w1 w2 -> log_extension upper_cp w2 w3 ->
  log_extension upper_cp w1 w3.
Proof.
  intros [l1 [E1 F1]] [l2 [E2 F2]]. exists (l1 ++ l2). split.
  - now rewrite E2, E1, app_assoc.
  - now apply Forall_app.
Qed.

Lemma keeps_ret {A} (a : A) : keeps (ret a).
Proof. intros w. apply log_extension_refl. Qed.

Lemma keeps_lift {A} (r : result A) : keeps (lift r).
Proof. intros w. apply log_extension_refl. Qed.

Lemma keeps_bind {A B} (m : M Env A) (k : A -> M Env B) :
  keeps m -> (forall a, keeps (k a)) -> keeps (bind m k).
Proof.
  intros Hm Hk w. unfold bind. specialize (Hm w).
  destruct (m w) as [w1 [a|e]]; cbn [fst] in *; [|exact Hm].
  eapply log_extension_trans; [exact Hm|apply Hk].
Qed.

Lemma keeps_try_except {A} (body : M Env A) (handler : exn -> M Env A) :
  keeps body -> (forall e, keeps (handler e)) ->
  keeps (try_except body handler).
Proof.
  intros Hb Hh w. unfold try_except. specialize (Hb w).
  destruct (body w) as [w1 [a|e]]; cbn [fst] in *; [exact Hb|].
  eapply log_extension_trans; [exact Hb|apply Hh].
Qed.

Lemma keeps_execute_query (query : str) (params : list str) :
  allowed_statement upper_cp (query, params) ->
  keeps (execute_query cursor_execute query params).
Proof.
  intros Ha w. unfold execute_query.
  destruct (cursor_execute query params (env w)) as [e' r]. cbn [fst].
  exists [(query, params)]. split; [reflexivity|]. now constructor.
Qed.

Lemma keeps_search_movies (keyword : str) : keeps (keyword_search keyword).
Proof. apply keeps_execute_query. now left. Qed.

Lemma keeps_fallback (user_input : str) : keeps (fallback user_input).
Proof.
  apply keeps_bind; [apply keeps_search_movies|]. intros a. apply keeps_ret.
Qed.

Lemma keeps_call_api (prompt : str) : keeps (call_api prompt).
Proof.
  apply keeps_try_except; [|intros e; apply keeps_ret].
  apply keeps_bind.
  - intros w. unfold post.
    destruct (requests_post DEEPSEEK_API_KEY prompt (env w)) as [e' r].
    cbn [fst]. exists []. now rewrite app_nil_r.
  - intros response. destruct (status_code response =? 200)%Z;
      [apply keeps_lift | apply keeps_ret].
Qed.

Lemma keeps_run_sql (sql_query : str) : keeps (run_sql sql_query).
Proof.
  intros w. destruct (is_select upper_cp sql_query) eqn:E.
  - rewrite (@execute_runs sql_query w E). cbn [fst]. unfold after_query.
    exists [(sql_query, [])]. split; [reflexivity|].
    constructor; [|constructor]. right. now split.
  - rewrite (@execute_rejects sql_query w E). apply log_extension_refl.
Qed.

Lemma keeps_ai_search (user_input : str) : keeps (search user_input).
Proof.
  unfold ai_search.
  apply keeps_try_except; [|intros e; apply keeps_fallback].
  destruct (str_eqb DEEPSEEK_API_KEY []); [apply keeps_fallback|].
  apply keeps_bind; [apply keeps_call_api|]. intros response.
  destruct (negb (truthy response)); [apply keeps_fallback|].
  apply keeps_bind; [apply keeps_lift|]. intros [[sql_query|] interp];
    [|apply keeps_fallback].
  destruct (str_eqb sql_query []); [apply keeps_fallback|].
  apply keeps_bind; [apply keeps_run_sql|]. intros rows. apply keeps_ret.
Qed.

(** C1. Read-only security boundary.  A statement the response parser
    returns passes the check [upper().strip().startswith('SELECT')]; the
    executor hands a statement to the store only when that check passes,
    and otherwise returns the empty list and leaves the store as it was;
    so a statement whose trimmed, upper-cased text starts with INSERT,
    UPDATE, DELETE or DROP is never executed; and every statement that
    [ai_search] as a whole executes is the fixed keyword-search statement
    or a generated statement that passed the check. *)
Theorem read_only_boundary :
  (forall response sql_query interp,
      _parse_ai_response upper_cp json_loads response
      = Ok (Some sql_query, interp) ->
      is_select upper_cp sql_query = true
      /\ (respects_space upper_cp ->
          startswith (upper upper_cp (strip sql_query)) SELECT = true))
  /\ (forall sql_query w,
        is_select upper_cp sql_query = false ->
        _execute_ai_sql upper_cp cursor_execute sql_query w = (w, Ok []))
  /\ (forall sql_query w,
        let w' := fst (_execute_ai_sql upper_cp cursor_execute sql_query w) in
        executed w' = executed w
        \/ (is_select upper_cp sql_query = true
            /\ executed w' = executed w ++ [(sql_query, [])]))
  /\ (forall verb sql_query w,
        In verb [INSERT; UPDATE; DELETE; DROP] ->
        startswith (strip (upper upper_cp sql_query)) verb = true ->
        _execute_ai_sql upper_cp cursor_execute sql_query w = (w, Ok []))
  /\ (forall user_input w,
        log_extension upper_cp w
          (fst (ai_search upper_cp json_loads cursor_execute requests_post
                  DEEPSEEK_API_KEY PROMPT_HEAD PROMPT_TAIL user_input w))).
Proof.
  split; [|split; [|split; [|split]]].
  - intros response sql_query interp H.
    assert (Hsel : is_select upper_cp sql_query = true)
      by (apply is_select_of_upper; eapply parse_returns_select; eauto).
    split; [exact Hsel|].
    intros Hspace. now rewrite <- is_select_strip_first.
  - intros. now apply execute_rejects.
  - intros sql_query w. cbv zeta.
    destruct (is_select upper_cp sql_query) eqn:E.
    + right. split; [reflexivity|]. now rewrite (@execute_runs sql_query w E).
    + left. now rewrite (@execute_rejects sql_query w E).
  - intros verb sql_query w Hin H. apply execute_rejects.
    eapply startswith_other_verb; eauto.
  - intros. apply keeps_ai_search.
Qed.

(** C4. Execution errors are absorbed inside the executor: [_execute_ai_sql]
    returns a list for every statement and every world, never an
    exception; and when the store raises on an accepted statement, the
    statement has been handed to the store and the result is the empty
    list. *)
Theorem execution_errors_absorbed :
  (forall sql_query w, exists w' rows,
      _execute_ai_sql upper_cp cursor_execute sql_query w = (w', Ok rows))
  /\ (forall sql_query w e' err,
        is_select upper_cp sql_query = true ->
        cursor_execute sql_query [] (env w) = (e', Raise err) ->
        _execute_ai_sql upper_cp cursor_execute sql_query w
        = (after_query w e' sql_query [], Ok [])).
Proof.
  split.
  - intros sql_query w. destruct (is_select upper_cp sql_query) eqn:E.
    + rewrite (@execute_runs sql_query w E). eauto.
    + rewrite (@execute_rejects sql_query w E). eauto.
  - intros sql_query w e' err E H.
    rewrite (@execute_runs sql_query w E), H. reflexivity.
Qed.

Lemma In_firstn {A} (n : nat) (l : list A) (x : A) :
  In x (firstn n l) -> In x l.
Proof.
  revert l. induction n as [|n IH]; intros l H.
  - destruct H.
  - destruct l as [|a l]; [destruct H|].
    destruct H as [H|H]; [now left | right; now apply IH].
Qed.

(** C5. Row cap.  The cursor of [execute_query] being a dict cursor,
    [_execute_ai_sql] returns at most 50 rows for every statement, in
    every world and whatever columns the rows have: for an accepted
    statement on which the store returns rows, it returns the first 50 of
    them, whatever limit the statement itself carries. *)
Theorem row_cap (sql_query : str) (w : World Env) :
  dict_cursor cursor_execute ->
  exists w' rows,
    _execute_ai_sql upper_cp cursor_execute sql_query w = (w', Ok rows)
    /\ (List.length rows <= 50)%nat
    /\ (forall e' stored,
          is_select upper_cp sql_query = true ->
          cursor_execute sql_query [] (env w) = (e', Ok stored) ->
          rows = firstn 50 stored).
Proof.
  intros Hdict. destruct (is_select upper_cp sql_query) eqn:E.
  2:{ rewrite (@execute_rejects sql_query w E). exists w, [].
      split; [reflexivity|]. split; [simpl; lia | discriminate]. }
  rewrite (@execute_runs sql_query w E).
  destruct (cursor_execute sql_query [] (env w)) as [e1 [stored|err]] eqn:C;
    cbn [fst snd].
  2:{ eexists _, []. split; [reflexivity|].
      split; [simpl; lia | intros e' stored _ H; discriminate]. }
  pose proof (Hdict _ _ _ _ _ C) as Hrows.
  exists (after_query w e1 sql_query []), (firstn 50 stored).
  split; [|split].
  - destruct stored as [|first rest]; [reflexivity|].
    inversion Hrows as [|? ? Hfirst _]; subst. now rewrite Hfirst.
  - apply firstn_le_length.
  - intros e' stored' _ H. now injection H as _ <-.
Qed.

(** C9, amended.  Every row the executor returns is a row the store
    returned for that very statement, unchanged: the executor neither
    projects nor checks columns.  So the rows of the AI path have the
    field set of a [search_movies] row exactly when the store's rows for
    the generated statement have it. *)
Theorem ai_rows_are_store_rows (sql_query : str) (w w' : World Env)
  (rows : list value) :
  _execute_ai_sql upper_cp cursor_execute sql_query w = (w', Ok rows) ->
  (forall row, In row rows ->
     exists e' stored,
       cursor_execute sql_query [] (env w) = (e', Ok stored)
       /\ In row stored)
  /\ (forall e' stored,
        cursor_execute sql_query [] (env w) = (e', Ok stored) ->
        Forall is_movie_summary stored -> Forall is_movie_summary rows).
Proof.
  intros H. destruct (is_select upper_cp sql_query) eqn:E.
  2:{ rewrite (@execute_rejects sql_query w E) in H.
      injection H as _ <-. split; [intros row Hr; destruct Hr|constructor]. }
  rewrite (@execute_runs sql_query w E) in H.
  destruct (cursor_execute sql_query [] (env w)) as [e1 [stored|err]] eqn:C;
    cbn [fst snd] in H.
  2:{ injection H as _ <-. split; [intros row Hr; destruct Hr|constructor]. }
  assert (Hin : forall row, In row rows -> In row stored).
  { destruct stored as [|first rest]; [injection H as _ <-; intros row Hr; destruct Hr|].
    pose proof (In_firstn 50 (first :: rest)) as Hcut.
    remember (firstn 50 (first :: rest)) as capped.
    destruct (isinstance_dict first); injection H as _ <-; auto. }
  split.
  - intros row Hrow. exists e1, stored. auto.
  - intros e2 stored2 Heq Hall. injection Heq as _ <-.
    rewrite Forall_forall in *. auto.
Qed.

(** *** The pipeline *)

Lemma fallback_ok (user_input : str) (w w' : World Env)
  (rows : list value) :
  keyword_search user_input w = (w', Ok rows) ->
  fallback user_input w = (w', Ok (fallback_result user_input rows)).
Proof.
  intros H. unfold keyword_fallback, bind. now rewrite H.
Qed.

(** C2. Totality of [ai_search]: if the keyword search returns rows
    whenever it is called, [ai_search] returns a result record (movies,
    sql, interpretation) for every input and in every world, and never
    raises. *)
Theorem ai_search_total :
  (forall keyword w, exists w' rows,
      search_movies cursor_execute keyword w = (w', Ok rows)) ->
  forall user_input w, exists w' r,
    ai_search upper_cp json_loads cursor_execute requests_post
      DEEPSEEK_API_KEY PROMPT_HEAD PROMPT_TAIL user_input w
    = (w', Ok r).
Proof.
  intros Htotal user_input w.
  assert (Hfb : forall w0, exists w' r,
             fallback user_input w0 = (w', Ok r)).
  { intros w0. destruct (Htotal user_input w0) as [w' [rows H]].
    rewrite (@fallback_ok user_input w0 w' rows H). eauto. }
  unfold ai_search, try_except.
  match goal with |- context [match ?body w with _ => _ end] =>
    destruct (body w) as [w1 [r|e]] end.
  - eauto.
  - apply Hfb.
Qed.

(** C3, amended.  When the credential is configured, the model's response
    is a non-empty text from which the parser extracts a statement, and
    the store raises on that statement, [ai_search] returns the empty row
    list together with the generated statement and its interpretation;
    the keyword search is not run. *)
Theorem execution_failure_returns_empty (user_input : str)
  (w w1 : World Env) (response sql_query interp : str)
  (e' : Env) (err : exn) :
  DEEPSEEK_API_KEY <> [] ->
  _call_deepseek_api requests_post DEEPSEEK_API_KEY
    (_build_ai_search_prompt PROMPT_HEAD PROMPT_TAIL user_input) w
  = (w1, Ok (VStr response)) ->
  response <> [] ->
  _parse_ai_response upper_cp json_loads response
  = Ok (Some sql_query, interp) ->
  cursor_execute sql_query [] (env w1) = (e', Raise err) ->
  ai_search upper_cp json_loads cursor_execute requests_post
    DEEPSEEK_API_KEY PROMPT_HEAD PROMPT_TAIL user_input w
  = (after_query w1 e' sql_query [],
     Ok {| movies := []; sql := sql_query; interpretation := interp |}).
Proof.
  intros Hkey Hcall Hresp Hparse Hexec.
  assert (Hsel : is_select upper_cp sql_query = true)
    by (apply is_select_of_upper; eapply parse_returns_select; eauto).
  pose proof (is_select_nonempty _ Hsel) as Hne.
  apply str_eqb_neq in Hkey, Hne.
  unfold ai_search, try_except. rewrite Hkey.
  unfold bind at 1. rewrite Hcall.
  replace (truthy (VStr response)) with true
    by (destruct response; [congruence|reflexivity]).
  cbn [negb]. unfold bind at 1. unfold lift at 1. rewrite Hparse.
  rewrite Hne. unfold bind.
  rewrite (@execute_runs sql_query w1 Hsel), Hexec. reflexivity.
Qed.

Lemma search_movies_posted (keyword : str) (w w' : World Env)
  (r : result (list value)) :
  keyword_search keyword w = (w', r) -> posted w' = posted w.
Proof.
  unfold search_movies, execute_query.
  destruct (cursor_execute _ _ _) as [e1 r1]. intros H.
  injection H as <- _. reflexivity.
Qed.

(** C8. With no credential configured, [ai_search] returns the fallback
    outcome at once: the rows of the keyword search on the user's text, an
    interpretation that contains the words for keyword search, and a
    statement text that contains the title filter on the user's text; no
    prompt is posted. *)
Theorem configuration_absent_fallback (user_input : str)
  (w w' : World Env) (rows : list value) :
  DEEPSEEK_API_KEY = [] ->
  search_movies cursor_execute user_input w = (w', Ok rows) ->
  ai_search upper_cp json_loads cursor_execute requests_post
    DEEPSEEK_API_KEY PROMPT_HEAD PROMPT_TAIL user_input w
  = (w', Ok (fallback_result user_input rows))
  /\ posted w' = posted w
  /\ movies (fallback_result user_input rows) = rows
  /\ contains (interpretation (fallback_result user_input rows))
              (lit "关键词搜索") = true
  /\ contains (sql (fallback_result user_input rows))
              (lit "cn_title ILIKE '%" ++ user_input ++ lit "%'") = true.
Proof.
  intros Hkey Hsearch. split; [|split; [|split; [|split]]].
  - unfold ai_search, try_except. rewrite Hkey, str_eqb_refl.
    now rewrite (@fallback_ok user_input w w' rows Hsearch).
  - eapply search_movies_posted; eauto.
  - reflexivity.
  - cbn [interpretation fallback_result].
    change (lit "关键词搜索: " ++ user_input)
      with ([] ++ lit "关键词搜索" ++ (lit ": " ++ user_input)).
    exact (contains_app [] (lit "关键词搜索") (lit ": " ++ user_input)).
  - cbn [sql fallback_result].
    replace (lit "SELECT * FROM movie WHERE cn_title ILIKE '%"
               ++ user_input ++ lit "%'")
      with (lit "SELECT * FROM movie WHERE "
              ++ (lit "cn_title ILIKE '%" ++ user_input ++ lit "%'") ++ []).
    + exact (contains_app (lit "SELECT * FROM movie WHERE ")
               (lit "cn_title ILIKE '%" ++ user_input ++ lit "%'") []).
    + rewrite app_nil_r.
      change (lit "SELECT * FROM movie WHERE cn_title ILIKE '%")
        with (lit "SELECT * FROM movie WHERE " ++ lit "cn_title ILIKE '%").
      now rewrite <- app_assoc.
Qed.

End PipelineFacts.

(* ================================================================== *)
(** ** The introduction loader *)
(* ================================================================== *)

Section IntroLoaderFacts.

Variable json_loads : str -> result value.
Variable py_repr : value -> str.

Local Abbreviation build := (_build_intro_cache json_loads py_repr).
Local Abbreviation get_intro := (get_movie_introduction json_loads py_repr).

Lemma dict_get_absent {A} (d : list (str * A)) (key : str) (default : A) :
  dict_mem d key = false -> dict_get d key default = default.
Proof.
  induction d as [|[k v] d IH]; [reflexivity|].
  cbn [dict_mem existsb fst dict_get].
  destruct (str_eqb k key); [discriminate|]. exact IH.
Qed.

Lemma build_degenerate (file : result str) :
  degenerate_file json_loads file -> build file = Ok [].
Proof.
  unfold _build_intro_cache.
  intros [-> | [[content [-> H]] | [content [data [-> [H Hl]]]]]];
    cbn [rbind].
  - reflexivity.
  - now rewrite H.
  - rewrite H. destruct data; try reflexivity. discriminate.
Qed.

Lemma fill_cache_records (items : list value) :
  Forall intro_record items ->
  forall cache, exists cache', fill_cache py_repr items cache = Ok cache'.
Proof.
  induction 1 as [|item items [d [-> Hintro]] _ IH]; intros cache.
  - now exists cache.
  - cbn [fill_cache method_get rbind].
    assert (Hs : exists s,
               method_strip
                 (py_or (dict_get d (lit "introduction") VNone) (VStr []))
               = Ok s).
    { unfold py_or.
      destruct (truthy (dict_get d (lit "introduction") VNone)) eqn:T.
      - destruct (Hintro eq_refl) as [s ->]. now eexists.
      - now eexists. }
    destruct Hs as [s ->]. cbn [rbind]. apply IH.
Qed.

(** C10, amended.  [get_movie_introduction] returns the empty string on
    every miss and does not raise, on the states of the file it guards:
    for a falsy identifier ([None] or the empty string) it returns ['']
    without touching the file, whatever its state; with no cache yet
    and the file missing, not JSON, or not a list, it returns [''] for
    every identifier; with a cache loaded it returns the cached
    introduction, which is [''] for an identifier the cache does not hold;
    and on a file that is a list of records it builds the cache and
    returns the introduction found there, [''] when there is none. *)
Theorem get_movie_introduction_miss :
  (forall douban_id st,
      truthy douban_id = false ->
      get_movie_introduction json_loads py_repr douban_id st = (st, Ok []))
  /\ (forall douban_id file,
        degenerate_file json_loads file ->
        snd (get_movie_introduction json_loads py_repr douban_id
               {| intro_file := file; _intro_cache := None |}) = Ok [])
  /\ (forall douban_id st cache,
        _intro_cache st = Some cache ->
        dict_mem cache (py_str py_repr douban_id) = false ->
        get_movie_introduction json_loads py_repr douban_id st
        = (st, Ok []))
  /\ (forall douban_id st cache,
        _intro_cache st = Some cache ->
        exists introduction,
          get_movie_introduction json_loads py_repr douban_id st
          = (st, Ok introduction))
  /\ (forall douban_id content items,
        json_loads content = Ok (VList items) ->
        Forall intro_record items ->
        let outcome :=
          snd (get_movie_introduction json_loads py_repr douban_id
                 {| intro_file := Ok content; _intro_cache := None |}) in
        exists cache,
          _build_intro_cache json_loads py_repr (Ok content) = Ok cache
          /\ outcome
             = Ok (if truthy douban_id
                   then dict_get cache (py_str py_repr douban_id) []
                   else [])
          /\ (dict_mem cache (py_str py_repr douban_id) = false ->
              outcome = Ok [])).
Proof.
  split; [|split; [|split; [|split]]].
  - intros douban_id st H. unfold get_movie_introduction. now rewrite H.
  - intros douban_id file H. unfold get_movie_introduction.
    destruct (truthy douban_id); cbn [negb]; [|reflexivity].
    unfold load_intro_cache. cbn [_intro_cache intro_file].
    rewrite (build_degenerate _ H). reflexivity.
  - intros douban_id st cache Hc Habs. unfold get_movie_introduction.
    destruct (truthy douban_id); cbn [negb]; [|reflexivity].
    unfold load_intro_cache. rewrite Hc.
    now rewrite (dict_get_absent _ _ _ Habs).
  - intros douban_id st cache Hc. unfold get_movie_introduction.
    destruct (truthy douban_id); cbn [negb]; [|eauto].
    unfold load_intro_cache. rewrite Hc. eauto.
  - intros douban_id content items Hj Hrec. cbv zeta.
    destruct (fill_cache_records items Hrec []) as [cache Hfill].
    assert (Hb : build (Ok content) = Ok cache).
    { unfold _build_intro_cache. cbn [rbind]. now rewrite Hj. }
    exists cache. split; [exact Hb|].
    unfold get_movie_introduction, load_intro_cache.
    cbn [_intro_cache intro_file]. rewrite Hb.
    destruct (truthy douban_id); cbn [negb snd]; split; try reflexivity.
    intros Habs. now rewrite (dict_get_absent _ _ _ Habs).
Qed.

End IntroLoaderFacts.

(* ================================================================== *)
(** ** The pipeline at work on the small store *)
(* ================================================================== *)

Lemma ascii_keeps_positions (s : str) : keeps_positions ascii_upper_cp s.
Proof.
  unfold keeps_positions. apply Forall_forall. intros c _.
  unfold ascii_upper_cp. now destruct ((97 <=? c) && (c <=? 122))%N.
Qed.

Lemma toy_search_movies_total (keyword : str) (w : World unit) :
  exists w' rows,
    search_movies Toy.cursor_execute keyword w = (w', Ok rows).
Proof.
  unfold search_movies, execute_query, Toy.cursor_execute.
  rewrite str_eqb_refl. eauto.
Qed.

(** The boundary on the small store: a DROP statement is turned away and
    the world stays as it was. *)
Lemma read_only_boundary_witness :
  startswith (strip (upper ascii_upper_cp (lit "  drop table movie")))
             DROP = true
  /\ _execute_ai_sql ascii_upper_cp Toy.cursor_execute
       (lit "  drop table movie") Toy.world0
     = (Toy.world0, Ok []).
Proof.
  split; [vm_compute; reflexivity|].
  apply (proj1 (proj2 (proj2 (proj2
           (read_only_boundary ascii_upper_cp Toy.json_loads unit
              Toy.cursor_execute (Toy.requests_post []) Toy.API_KEY [] []))))
         DROP).
  - simpl. auto.
  - vm_compute. reflexivity.
Defined.

Lemma ai_search_total_witness :
  exists w' r,
    ai_search ascii_upper_cp Toy.json_loads Toy.cursor_execute
      (Toy.requests_post Toy.response_unknown_column) Toy.API_KEY [] []
      (lit "'; DROP TABLE movie; -- ```") Toy.world0
    = (w', Ok r).
Proof.
  apply (ai_search_total ascii_upper_cp Toy.json_loads unit Toy.cursor_execute
           (Toy.requests_post Toy.response_unknown_column) Toy.API_KEY
           [] [] toy_search_movies_total).
Defined.

(** C3 fails as stated: the store rejects the generated statement, the
    keyword search on the same text would have found a movie, and
    [ai_search] returns no row with the generated statement instead of the
    fallback outcome. *)
Lemma execution_failure_counterexample :
  let user_input := lit "肖申克" in
  let outcome :=
    snd (ai_search ascii_upper_cp Toy.json_loads Toy.cursor_execute
           (Toy.requests_post Toy.response_unknown_column) Toy.API_KEY
           [] [] user_input Toy.world0) in
  _parse_ai_response ascii_upper_cp Toy.json_loads
    Toy.response_unknown_column
  = Ok (Some (lit "SELECT nope FROM movie"), lit "搜索电影")
  /\ Toy.cursor_execute (lit "SELECT nope FROM movie") [] tt
     = (tt, Raise ProgrammingError)
  /\ snd (search_movies Toy.cursor_execute user_input Toy.world0)
     = Ok [Toy.movie_row]
  /\ outcome
     = Ok {| movies := [];
             sql := lit "SELECT nope FROM movie";
             interpretation := lit "搜索电影" |}
  /\ outcome <> Ok (fallback_result user_input [Toy.movie_row]).
Proof.
  repeat split; try (vm_compute; reflexivity).
  vm_compute. discriminate.
Qed.

Lemma execution_failure_returns_empty_witness :
  ai_search ascii_upper_cp Toy.json_loads Toy.cursor_execute
    (Toy.requests_post Toy.response_unknown_column) Toy.API_KEY [] []
    (lit "肖申克") Toy.world0
  = (after_query
       {| env := tt; executed := []; posted := [lit "肖申克"] |} tt
       (lit "SELECT nope FROM movie") [],
     Ok {| movies := [];
           sql := lit "SELECT nope FROM movie";
           interpretation := lit "搜索电影" |}).
Proof.
  apply (execution_failure_returns_empty ascii_upper_cp Toy.json_loads unit
           Toy.cursor_execute (Toy.requests_post Toy.response_unknown_column)
           Toy.API_KEY [] [] (lit "肖申克") Toy.world0
           {| env := tt; executed := []; posted := [lit "肖申克"] |}
           Toy.response_unknown_column (lit "SELECT nope FROM movie")
           (lit "搜索电影") tt ProgrammingError).
  - vm_compute. discriminate.
  - vm_compute. reflexivity.
  - vm_compute. discriminate.
  - vm_compute. reflexivity.
  - vm_compute. reflexivity.
Defined.

Lemma execution_errors_absorbed_witness :
  _execute_ai_sql ascii_upper_cp Toy.cursor_execute
    (lit "SELECT nope FROM movie") Toy.world0
  = (after_query Toy.world0 tt (lit "SELECT nope FROM movie") [], Ok []).
Proof.
  apply (proj2 (execution_errors_absorbed ascii_upper_cp unit Toy.cursor_execute)
           (lit "SELECT nope FROM movie") Toy.world0 tt ProgrammingError).
  - vm_compute. reflexivity.
  - vm_compute. reflexivity.
Defined.

Lemma toy_many_dict_cursor : dict_cursor Demo.cursor_execute_many.
Proof.
  intros query params e e' rows H. unfold Demo.cursor_execute_many in H.
  destruct (str_eqb query (lit "SELECT cn_title FROM movie LIMIT 51"));
    inversion H; subst rows; repeat constructor.
Qed.

(** The store holds 51 rows and the statement asks for 51; 50 come back. *)
Lemma row_cap_witness :
  dict_cursor Demo.cursor_execute_many
  /\ exists w' rows,
       _execute_ai_sql ascii_upper_cp Demo.cursor_execute_many
         (lit "SELECT cn_title FROM movie LIMIT 51") Toy.world0
       = (w', Ok rows)
       /\ (List.length rows <= 50)%nat
       /\ rows = firstn 50 (repeat Toy.title_row 51)
       /\ List.length rows = 50%nat.
Proof.
  split; [exact toy_many_dict_cursor|].
  destruct (row_cap ascii_upper_cp unit Demo.cursor_execute_many
              (lit "SELECT cn_title FROM movie LIMIT 51") Toy.world0
              toy_many_dict_cursor) as [w' [rows [H1 [H2 H3]]]].
  assert (Hrows : rows = firstn 50 (repeat Toy.title_row 51))
    by (apply (H3 tt (repeat Toy.title_row 51)); vm_compute; reflexivity).
  exists w', rows. split; [exact H1|]. split; [exact H2|].
  split; [exact Hrows|]. rewrite Hrows. vm_compute. reflexivity.
Defined.

(** C6 fails as stated: a double line feed at index 26 comes before the
    code fence at index 42, and the parser still cuts at the fence. *)
Lemma text_scan_counterexample :
  let response := Toy.response_fence_after_break in
  Toy.json_loads (strip response) = Raise JSONDecodeError
  /\ find response DOUBLE_LF = 26%Z
  /\ find response FENCE = 42%Z
  /\ _parse_ai_response ascii_upper_cp Toy.json_loads response
     = Ok (Some (lit "SELECT cn_title FROM movie" ++ DOUBLE_LF
                   ++ lit "ORDER BY rank"),
           lit "从文本中提取的查询")
  /\ spec_extract_sql_from_text ascii_upper_cp response
     = (Some (lit "SELECT cn_title FROM movie"), lit "从文本中提取的查询")
  /\ _parse_ai_response ascii_upper_cp Toy.json_loads response
     <> Ok (spec_extract_sql_from_text ascii_upper_cp response).
Proof.
  repeat split; try (vm_compute; reflexivity).
  vm_compute. discriminate.
Qed.

Lemma text_scan_cuts_by_priority_witness :
  _parse_ai_response ascii_upper_cp Toy.json_loads
    Toy.response_fence_after_break
  = Ok (accept_candidate ascii_upper_cp
          (firstn 42 (skipn 0 Toy.response_fence_after_break))).
Proof.
  refine (proj1 (text_scan_cuts_by_priority ascii_upper_cp Toy.json_loads
                   Toy.response_fence_after_break 0 _ _ _) 42 _).
  - vm_compute. reflexivity.
  - apply ascii_keeps_positions.
  - split; [vm_compute; reflexivity | intros j Hj; lia].
  - apply find_nat_sound. vm_compute. reflexivity.
Defined.

(** C7 fails as stated: the record's [sql] field starts with WITH, the raw
    text holds a SELECT that the text scan would return, and the parser
    returns the no-statement signal without scanning. *)
Lemma invalid_sql_field_counterexample :
  let response := Toy.response_with_cte in
  Toy.json_loads (strip response)
  = Ok (VDict [(lit "sql",
                VStr (lit "WITH t AS (SELECT movie_id FROM movie) SELECT * FROM t"))])
  /\ _parse_ai_response ascii_upper_cp Toy.json_loads response
     = Ok (None, lit "AI生成的查询")
  /\ extract_sql_from_text ascii_upper_cp response
     = (Some (lit "SELECT movie_id FROM movie) SELECT * FROM t" ++ dq
                ++ lit "}"),
        lit "从文本中提取的查询")
  /\ _parse_ai_response ascii_upper_cp Toy.json_loads response
     <> Ok (extract_sql_from_text ascii_upper_cp response).
Proof.
  repeat split; try (vm_compute; reflexivity).
  vm_compute. discriminate.
Qed.

Lemma invalid_sql_field_returns_none_witness :
  _parse_ai_response ascii_upper_cp Toy.json_loads Toy.response_with_cte
  = Ok (None, strip (lit "AI生成的查询")).
Proof.
  apply (invalid_sql_field_returns_none ascii_upper_cp Toy.json_loads
           Toy.response_with_cte
           [(lit "sql",
             VStr (lit "WITH t AS (SELECT movie_id FROM movie) SELECT * FROM t"))]
           (lit "WITH t AS (SELECT movie_id FROM movie) SELECT * FROM t")
           (lit "AI生成的查询")).
  - vm_compute. reflexivity.
  - vm_compute. reflexivity.
  - vm_compute. reflexivity.
  - right. vm_compute. reflexivity.
Defined.

(** Scenario 1 of the specification. *)
Lemma configuration_absent_fallback_witness :
  let user_input := lit "高分科幻" in
  let outcome := fallback_result user_input [Toy.movie_row] in
  ai_search ascii_upper_cp Toy.json_loads Toy.cursor_execute
    (Toy.requests_post []) [] [] [] user_input Toy.world0
  = (after_query Toy.world0 tt SEARCH_QUERY
       [lit "%高分科幻%"; lit "%高分科幻%"; lit "%高分科幻%"; lit "%高分科幻%"],
     Ok outcome)
  /\ contains (interpretation outcome) (lit "关键词搜索") = true
  /\ contains (sql outcome) (lit "cn_title ILIKE '%高分科幻%'") = true.
Proof.
  destruct (configuration_absent_fallback ascii_upper_cp Toy.json_loads unit
              Toy.cursor_execute (Toy.requests_post []) [] [] []
              (lit "高分科幻") Toy.world0
              (after_query Toy.world0 tt SEARCH_QUERY
                 [lit "%高分科幻%"; lit "%高分科幻%"; lit "%高分科幻%";
                  lit "%高分科幻%"])
              [Toy.movie_row] eq_refl eq_refl)
    as [H1 [_ [_ [H2 H3]]]].
  exact (conj H1 (conj H2 H3)).
Defined.

(** C9 fails as stated: the model asks for the title only, the store
    returns a row with that one column, and [ai_search] passes it on; a
    row of the keyword search has the nine columns. *)
Lemma row_shape_counterexample :
  let user_input := lit "肖申克" in
  snd (ai_search ascii_upper_cp Toy.json_loads Toy.cursor_execute
         (Toy.requests_post Toy.response_title_only) Toy.API_KEY [] []
         user_input Toy.world0)
  = Ok {| movies := [Toy.title_row];
          sql := lit "SELECT cn_title FROM movie";
          interpretation := lit "电影名称" |}
  /\ snd (_execute_ai_sql ascii_upper_cp Toy.cursor_execute
            (lit "SELECT cn_title FROM movie") Toy.world0)
     = Ok [Toy.title_row]
  /\ snd (search_movies Toy.cursor_execute user_input Toy.world0)
     = Ok [Toy.movie_row]
  /\ field_set Toy.movie_row = Some MOVIE_SUMMARY_FIELDS
  /\ field_set Toy.title_row = Some [lit "cn_title"]
  /\ field_set Toy.title_row <> field_set Toy.movie_row.
Proof.
  repeat split; try (vm_compute; reflexivity).
  vm_compute. discriminate.
Qed.

Lemma ai_rows_are_store_rows_witness :
  exists e' stored,
    Toy.cursor_execute (lit "SELECT cn_title FROM movie") [] tt
    = (e', Ok stored)
    /\ In Toy.title_row stored.
Proof.
  apply (proj1 (ai_rows_are_store_rows ascii_upper_cp unit Toy.cursor_execute
                  (lit "SELECT cn_title FROM movie") Toy.world0
                  (after_query Toy.world0 tt
                     (lit "SELECT cn_title FROM movie") [])
                  [Toy.title_row] eq_refl) Toy.title_row).
  simpl. auto.
Defined.

(** C10 fails as stated: on a file that is a list whose item is not an
    object, and on a file whose bytes are not UTF-8, the lookup of an
    identifier the data do not hold raises. *)
Lemma get_movie_introduction_counterexample :
  Toy.json_loads Demo.intro_numbers = Ok (VList [VInt 7])
  /\ get_movie_introduction Toy.json_loads Toy.py_repr (VStr (lit "999"))
       {| intro_file := Ok Demo.intro_numbers; _intro_cache := None |}
     = ({| intro_file := Ok Demo.intro_numbers; _intro_cache := None |},
        Raise AttributeError)
  /\ get_movie_introduction Toy.json_loads Toy.py_repr (VStr (lit "999"))
       {| intro_file := Raise UnicodeDecodeError; _intro_cache := None |}
     = ({| intro_file := Raise UnicodeDecodeError; _intro_cache := None |},
        Raise UnicodeDecodeError).
Proof.
  split; [|split]; vm_compute; reflexivity.
Qed.

Lemma get_movie_introduction_miss_witness :
  snd (get_movie_introduction Toy.json_loads Toy.py_repr
         (VStr (lit "1292052"))
         {| intro_file := Raise FileNotFoundError; _intro_cache := None |})
  = Ok []
  /\ snd (get_movie_introduction Toy.json_loads Toy.py_repr
            (VStr (lit "1292052"))
            {| intro_file := Ok (lit "{not json");
               _intro_cache := None |})
     = Ok []
  /\ snd (get_movie_introduction Toy.json_loads Toy.py_repr
            (VStr (lit "1292052"))
            {| intro_file := Ok (lit "{}"); _intro_cache := None |})
     = Ok []
  /\ get_movie_introduction Toy.json_loads Toy.py_repr VNone
       {| intro_file := Ok Toy.intro_content; _intro_cache := None |}
     = ({| intro_file := Ok Toy.intro_content; _intro_cache := None |},
        Ok []).
Proof.
  pose proof (get_movie_introduction_miss Toy.json_loads Toy.py_repr)
    as [Hfalsy [Hdegenerate _]].
  split; [|split; [|split]].
  - apply Hdegenerate. now left.
  - apply Hdegenerate. right. left. eexists. split; [reflexivity|].
    vm_compute. reflexivity.
  - apply Hdegenerate. right. right. do 2 eexists.
    split; [reflexivity|]. split; vm_compute; reflexivity.
  - apply Hfalsy. reflexivity.
Defined.

(* ================================================================== *)
(** ** More on the pipeline: the model call and the routes of [ai_search] *)
(* ================================================================== *)

Section PipelineRoutes.

Variable upper_cp : N -> str.
Variable json_loads : str -> result value.
Variable Env : Type.
Variable cursor_execute :
  str -> list str -> Env -> Env * result (list value).
Variable requests_post :
  str -> str -> Env -> Env * result http_response.
Variable DEEPSEEK_API_KEY : str.
Variables PROMPT_HEAD PROMPT_TAIL : str.

Local Abbreviation parse := (_parse_ai_response upper_cp json_loads).
Local Abbreviation run_sql := (_execute_ai_sql upper_cp cursor_execute).
Local Abbreviation keyword_search := (search_movies cursor_execute).
Local Abbreviation call_api :=
  (_call_deepseek_api requests_post DEEPSEEK_API_KEY).
Local Abbreviation fallback := (keyword_fallback cursor_execute).
Local Abbreviation search :=
  (ai_search upper_cp json_loads cursor_execute requests_post
             DEEPSEEK_API_KEY PROMPT_HEAD PROMPT_TAIL).
Local Abbreviation prompt_of :=
  (_build_ai_search_prompt PROMPT_HEAD PROMPT_TAIL).

(** The world after one POST of [prompt] that left the environment [e]. *)
Lemma call_api_world (prompt : str) (w : World Env) :
  fst (call_api prompt w)
  = {| env := fst (requests_post DEEPSEEK_API_KEY prompt (env w));
       executed := executed w;
       posted := posted w ++ [prompt] |}
  /\ exists v, snd (call_api prompt w) = Ok v.
Proof.
  unfold _call_deepseek_api, try_except, bind, post, ret, lift.
  destruct (requests_post DEEPSEEK_API_KEY prompt (env w))
    as [e' [response|err]]; cbn [fst snd];
    [|split; [reflexivity | eexists; reflexivity]].
  destruct (status_code response =? 200)%Z;
    [|split; [reflexivity | eexists; reflexivity]].
  match goal with
  | |- context [match ?r with Ok _ => _ | Raise _ => _ end] =>
      destruct r as [v|err]
  end; split; try reflexivity; eexists; reflexivity.
Qed.

(** X1. [_call_deepseek_api] never raises, posts the prompt exactly once
    (no retry), and hands no statement to the store. *)
Theorem call_deepseek_api_single_attempt (prompt : str) (w : World Env) :
  exists e' v,
    _call_deepseek_api requests_post DEEPSEEK_API_KEY prompt w
    = ({| env := e'; executed := executed w;
          posted := posted w ++ [prompt] |}, Ok v).
Proof.
  destruct (call_api_world prompt w) as [Hw [v Hv]].
  exists (fst (requests_post DEEPSEEK_API_KEY prompt (env w))), v.
  rewrite <- Hw, <- Hv. now destruct (call_api prompt w).
Qed.

(** X2. What [_call_deepseek_api] returns is [None] unless the endpoint
    answered with status 200 and a JSON body in which
    [choices[0].message.content] exists; then it is that content. *)
Theorem call_deepseek_api_content (prompt : str) (w : World Env) :
  (forall v,
      snd (_call_deepseek_api requests_post DEEPSEEK_API_KEY prompt w)
      = Ok v ->
      v <> VNone ->
      exists response body choices choice message,
        snd (requests_post DEEPSEEK_API_KEY prompt (env w)) = Ok response
        /\ status_code response = 200%Z
        /\ json_body response = Ok body
        /\ getitem_key body (lit "choices") = Ok choices
        /\ getitem_0 choices = Ok choice
        /\ getitem_key choice (lit "message") = Ok message
        /\ getitem_key message (lit "content") = Ok v)
  /\ (forall response body choices choice message v,
        snd (requests_post DEEPSEEK_API_KEY prompt (env w)) = Ok response ->
        status_code response = 200%Z ->
        json_body response = Ok body ->
        getitem_key body (lit "choices") = Ok choices ->
        getitem_0 choices = Ok choice ->
        getitem_key choice (lit "message") = Ok message ->
        getitem_key message (lit "content") = Ok v ->
        snd (_call_deepseek_api requests_post DEEPSEEK_API_KEY prompt w)
        = Ok v).
Proof.
  unfold _call_deepseek_api, try_except, bind, post, ret.
  destruct (requests_post DEEPSEEK_API_KEY prompt (env w))
    as [e' [response|err]]; cbn [fst snd].
  2:{ split; [intros v H Hv; congruence | intros; discriminate]. }
  split.
  - intros v H Hv.
    destruct (status_code response =? 200)%Z eqn:Es;
      [|cbn in H; congruence].
    apply Z.eqb_eq in Es. unfold lift in H.
    destruct (json_body response) as [body|] eqn:Eb;
      cbn [rbind snd] in H; [|congruence].
    destruct (getitem_key body (lit "choices")) as [choices|] eqn:E1;
      cbn [rbind snd] in H; [|congruence].
    destruct (getitem_0 choices) as [choice|] eqn:E2;
      cbn [rbind snd] in H; [|congruence].
    destruct (getitem_key choice (lit "message")) as [message|] eqn:E3;
      cbn [rbind snd] in H; [|congruence].
    destruct (getitem_key message (lit "content")) as [c|] eqn:E4;
      cbn [rbind snd] in H; [|congruence].
    injection H as <-.
    exists response, body, choices, choice, message. repeat split; auto.
  - intros r body choices choice message v H Hs Hb H1 H2 H3 H4.
    injection H as <-. rewrite Hs. cbn [Z.eqb Pos.eqb]. unfold lift.
    rewrite Hb. cbn [rbind]. rewrite H1. cbn [rbind]. rewrite H2.
    cbn [rbind]. rewrite H3. cbn [rbind]. rewrite H4. reflexivity.
Qed.

Lemma key_configured :
  DEEPSEEK_API_KEY <> [] -> str_eqb DEEPSEEK_API_KEY [] = false.
Proof. apply str_eqb_neq. Qed.

(** X3. Network failure: with a credential configured, when the model call
    yields nothing ([None] or an empty text), [ai_search] returns the
    keyword-search outcome for the user's text. *)
Theorem ai_search_falls_back_without_response (user_input : str)
  (w w1 w' : World Env) (v : value) (rows : list value) :
  DEEPSEEK_API_KEY <> [] ->
  _call_deepseek_api requests_post DEEPSEEK_API_KEY
    (_build_ai_search_prompt PROMPT_HEAD PROMPT_TAIL user_input) w
  = (w1, Ok v) ->
  truthy v = false ->
  search_movies cursor_execute user_input w1 = (w', Ok rows) ->
  ai_search upper_cp json_loads cursor_execute requests_post
    DEEPSEEK_API_KEY PROMPT_HEAD PROMPT_TAIL user_input w
  = (w', Ok (fallback_result user_input rows)).
Proof.
  intros Hkey Hcall Hv Hsearch.
  unfold ai_search, try_except. rewrite (key_configured Hkey).
  unfold bind at 1. rewrite Hcall, Hv. cbn [negb].
  now rewrite (fallback_ok Env cursor_execute user_input w1 w' rows Hsearch).
Qed.

(** X4. No usable statement: with a credential configured and a non-empty
    answer of the model from which the parser gets no statement (the
    no-statement signal, an exception, or a content that is not a text),
    [ai_search] returns the keyword-search outcome, and the only statement
    handed to the store is the keyword search. *)
Theorem ai_search_falls_back_without_statement (user_input : str)
  (w w1 w' : World Env) (v : value) (rows : list value) :
  DEEPSEEK_API_KEY <> [] ->
  _call_deepseek_api requests_post DEEPSEEK_API_KEY
    (_build_ai_search_prompt PROMPT_HEAD PROMPT_TAIL user_input) w
  = (w1, Ok v) ->
  truthy v = true ->
  no_statement upper_cp json_loads v ->
  search_movies cursor_execute user_input w1 = (w', Ok rows) ->
  ai_search upper_cp json_loads cursor_execute requests_post
    DEEPSEEK_API_KEY PROMPT_HEAD PROMPT_TAIL user_input w
  = (w', Ok (fallback_result user_input rows))
  /\ executed w'
     = executed w
       ++ [(SEARCH_QUERY,
            let search_pattern := lit "%" ++ user_input ++ lit "%" in
            [search_pattern; search_pattern; search_pattern;
             search_pattern])].
Proof.
  intros Hkey Hcall Hv Hno Hsearch.
  pose proof (fallback_ok Env cursor_execute user_input w1 w' rows Hsearch)
    as Hfb.
  split.
  - unfold ai_search, try_except. rewrite (key_configured Hkey).
    unfold bind at 1. rewrite Hcall, Hv. cbn [negb].
    unfold bind at 1. unfold lift at 1.
    destruct v; try exact Hfb.
    destruct Hno as [[interp Hp] | [e Hp]]; rewrite Hp;
      [now rewrite Hfb | exact Hfb].
  - destruct (call_api_world (prompt_of user_input) w) as [Hw _].
    rewrite Hcall in Hw. cbn [fst] in Hw.
    unfold search_movies, execute_query in Hsearch.
    destruct (cursor_execute _ _ (env w1)) as [e1 r1].
    injection Hsearch as <- _. cbn [executed]. now rewrite Hw.
Qed.

(** X5. Success: with a credential configured, a non-empty answer from
    which the parser extracts a statement, and a store that returns dict
    rows for it, [ai_search] returns the first 50 of these rows with the
    statement and its interpretation; the statement is the only one
    executed, once. *)
Theorem ai_search_returns_generated_rows (user_input : str)
  (w w1 : World Env) (response sql_query interp : str)
  (e' : Env) (stored : list value) :
  DEEPSEEK_API_KEY <> [] ->
  _call_deepseek_api requests_post DEEPSEEK_API_KEY
    (_build_ai_search_prompt PROMPT_HEAD PROMPT_TAIL user_input) w
  = (w1, Ok (VStr response)) ->
  response <> [] ->
  _parse_ai_response upper_cp json_loads response
  = Ok (Some sql_query, interp) ->
  cursor_execute sql_query [] (env w1) = (e', Ok stored) ->
  (forall first, hd_error stored = Some first ->
                 isinstance_dict first = true) ->
  ai_search upper_cp json_loads cursor_execute requests_post
    DEEPSEEK_API_KEY PROMPT_HEAD PROMPT_TAIL user_input w
  = (after_query w1 e' sql_query [],
     Ok {| movies := firstn 50 stored;
           sql := sql_query;
           interpretation := interp |})
  /\ executed (after_query w1 e' sql_query [])
     = executed w ++ [(sql_query, [])].
Proof.
  intros Hkey Hcall Hresp Hparse Hexec Hdict.
  assert (Hsel : is_select upper_cp sql_query = true)
    by (apply is_select_of_upper; eapply parse_returns_select; eauto).
  pose proof (is_select_nonempty upper_cp sql_query Hsel) as Hne.
  apply str_eqb_neq in Hne.
  split.
  - unfold ai_search, try_except. rewrite (key_configured Hkey).
    unfold bind at 1. rewrite Hcall.
    replace (truthy (VStr response)) with true
      by (destruct response; [congruence|reflexivity]).
    cbn [negb]. unfold bind at 1. unfold lift at 1. rewrite Hparse.
    rewrite Hne. unfold bind.
    rewrite (execute_runs upper_cp Env cursor_execute sql_query w1 Hsel).
    rewrite Hexec. cbn [fst snd].
    destruct stored as [|first rest]; [reflexivity|].
    now rewrite (Hdict first eq_refl).
  - destruct (call_api_world (prompt_of user_input) w) as [Hw _].
    rewrite Hcall in Hw. cbn [fst] in Hw.
    unfold after_query. cbn [executed]. now rewrite Hw.
Qed.

(** X6. [ai_search] raises only what the keyword search of its exception
    handler raises: an exception that leaves [ai_search] is one the last
    call of [search_movies] on the user's text raised. *)
Theorem ai_search_raises_only_from_keyword_search (user_input : str)
  (w w' : World Env) (e : exn) :
  ai_search upper_cp json_loads cursor_execute requests_post
    DEEPSEEK_API_KEY PROMPT_HEAD PROMPT_TAIL user_input w
  = (w', Raise e) ->
  exists w1, search_movies cursor_execute user_input w1 = (w', Raise e).
Proof.
  unfold ai_search, try_except.
  match goal with |- context [match ?body w with _ => _ end] =>
    destruct (body w) as [w1 [r|e0]] end; [discriminate|].
  unfold keyword_fallback, bind. intros H. exists w1.
  destruct (search_movies cursor_execute user_input w1) as [w2 [rows|e2]];
    [discriminate|]. now injection H as <- <-.
Qed.

(** *** Prompts posted *)

Lemma fallback_posted (user_input : str) (w : World Env) :
  posted (fst (fallback user_input w)) = posted w.
Proof.
  unfold keyword_fallback, bind.
  destruct (search_movies cursor_execute user_input w) as [w1 r] eqn:E.
  pose proof (search_movies_posted Env cursor_execute user_input w w1 r E).
  now destruct r.
Qed.

Lemma run_sql_posted (sql_query : str) (w : World Env) :
  posted (fst (run_sql sql_query w)) = posted w.
Proof.
  destruct (is_select upper_cp sql_query) eqn:E.
  - now rewrite (execute_runs upper_cp Env cursor_execute sql_query w E).
  - now rewrite (execute_rejects upper_cp Env cursor_execute sql_query w E).
Qed.

(** X7. A single attempt: [ai_search] posts at most one prompt, the one
    built from the user's text, and none at all without a credential. *)
Theorem ai_search_posts_at_most_once (user_input : str) (w : World Env) :
  let w' :=
    fst (ai_search upper_cp json_loads cursor_execute requests_post
           DEEPSEEK_API_KEY PROMPT_HEAD PROMPT_TAIL user_input w) in
  (posted w' = posted w
   \/ (DEEPSEEK_API_KEY <> []
       /\ posted w'
          = posted w
            ++ [_build_ai_search_prompt PROMPT_HEAD PROMPT_TAIL
                  user_input]))
  /\ (DEEPSEEK_API_KEY = [] -> posted w' = posted w).
Proof.
  cbv zeta. unfold ai_search, try_except.
  destruct (str_eqb DEEPSEEK_API_KEY []) eqn:Ek.
  - assert (H : posted
             (fst (match fallback user_input w with
                   | (w1, Ok a) => (w1, Ok a)
                   | (w1, Raise e) => fallback user_input w1
                   end)) = posted w).
    { pose proof (fallback_posted user_input w) as H1.
      destruct (fallback user_input w) as [w1 [a|e]]; cbn [fst] in *;
        [exact H1|]. now rewrite fallback_posted. }
    split; [left; exact H | intros _; exact H].
  - apply str_eqb_neq in Ek.
    split; [|intros Hk; congruence]. right. split; [exact Ek|].
    unfold bind at 1.
    destruct (call_api_world (prompt_of user_input) w) as [Hw [v Hv]].
    destruct (call_api (prompt_of user_input) w) as [w1 r].
    cbn [fst snd] in Hw, Hv. subst r.
    assert (Hp : posted w1 = posted w ++ [prompt_of user_input])
      by now rewrite Hw.
    rewrite <- Hp.
    assert (Hfb : forall w0 w2 r,
               fallback user_input w0 = (w2, r) ->
               posted
                 (fst (match r with
                       | Ok a => (w2, Ok a)
                       | Raise e => fallback user_input w2
                       end)) = posted w0).
    { intros w0 w2 r H. pose proof (fallback_posted user_input w0) as H1.
      rewrite H in H1. cbn [fst] in H1.
      destruct r; cbn [fst]; [exact H1|]. now rewrite fallback_posted. }
    destruct (negb (truthy v)).
    { destruct (fallback user_input w1) as [w2 r] eqn:E.
      exact (Hfb w1 w2 r E). }
    unfold bind at 1. unfold lift at 1.
    destruct (match v with
              | VStr s => parse s
              | _ => Raise AttributeError
              end) as [[[sql_query|] interp]|e].
    + destruct (str_eqb sql_query []).
      * destruct (fallback user_input w1) as [w2 r] eqn:E.
        exact (Hfb w1 w2 r E).
      * unfold bind. pose proof (run_sql_posted sql_query w1) as H1.
        destruct (run_sql sql_query w1) as [w2 [rows|e]]; cbn [fst] in *;
          [exact H1|]. now rewrite fallback_posted.
    + destruct (fallback user_input w1) as [w2 r] eqn:E.
      exact (Hfb w1 w2 r E).
    + apply fallback_posted.
Qed.

End PipelineRoutes.

(* ================================================================== *)
(** ** More on the response parser *)
(* ================================================================== *)

Lemma find_nat_none_absent (s sub : str) :
  find_nat s sub = None -> absent s sub.
Proof.
  unfold absent, occurs_at. induction s as [|c s IH]; intros H j.
  - simpl in H. destruct (startswith [] sub) eqn:E; [discriminate|].
    destruct j; simpl; congruence.
  - simpl in H. destruct (startswith (c :: s) sub) eqn:E; [discriminate|].
    destruct (find_nat s sub) eqn:F; [discriminate|].
    destruct j as [|j]; [simpl; congruence|]. simpl. now apply IH.
Qed.

Lemma contains_false_iff (s sub : str) :
  contains s sub = false <-> absent s sub.
Proof.
  unfold contains. split.
  - destruct (find_nat s sub) eqn:F; [discriminate|].
    intros _. now apply find_nat_none_absent.
  - intros H. now rewrite (find_nat_absent s sub H).
Qed.

Lemma startswith_firstn (n : nat) (x t : str) :
  startswith (firstn n x) t = true -> startswith x t = true.
Proof.
  revert n x. induction t as [|c t IH]; intros n x H; [reflexivity|].
  destruct n as [|n]; [discriminate|].
  destruct x as [|d x]; [discriminate|].
  cbn [firstn startswith] in *.
  apply andb_true_iff in H as [H1 H2]. rewrite H1. cbn [andb].
  eapply IH; eauto.
Qed.

Lemma absent_skipn (n : nat) (s t : str) :
  absent s t -> absent (skipn n s) t.
Proof.
  unfold absent, occurs_at. intros H j. rewrite skipn_skipn. apply H.
Qed.

Lemma absent_firstn (n : nat) (s t : str) :
  absent s t -> absent (firstn n s) t.
Proof.
  unfold absent, occurs_at. intros H j Hocc.
  rewrite skipn_firstn_comm in Hocc.
  apply startswith_firstn in Hocc. exact (H j Hocc).
Qed.

Lemma first_occurrence_cuts (s t : str) (i : nat) :
  t <> [] -> first_occurrence s t i -> absent (firstn i s) t.
Proof.
  unfold first_occurrence, absent, occurs_at.
  intros Ht [_ Hlt] j Hocc. rewrite skipn_firstn_comm in Hocc.
  destruct (Nat.lt_ge_cases j i) as [Hj|Hj].
  - apply startswith_firstn in Hocc. exact (Hlt j Hj Hocc).
  - replace (i - j)%nat with 0%nat in Hocc by lia.
    destruct t; [congruence|discriminate].
Qed.

Lemma dropwhile_skipn (f : N -> bool) (s : str) :
  exists n, dropwhile f s = skipn n s.
Proof.
  induction s as [|c s [n IH]]; [now exists 0%nat|].
  simpl. destruct (f c); [now exists (S n) | now exists 0%nat].
Qed.

Lemma rev_dropwhile_firstn (f : N -> bool) (s : str) :
  exists n, rev (dropwhile f (rev s)) = firstn n s.
Proof.
  destruct (dropwhile_skipn f (rev s)) as [n ->].
  rewrite skipn_rev, rev_involutive. eauto.
Qed.

Lemma dropwhile_head (f : N -> bool) (s : str) (c : N) (r : str) :
  dropwhile f s = c :: r -> f c = false.
Proof.
  induction s as [|d s IH]; [discriminate|].
  simpl. destruct (f d) eqn:E; [exact IH|].
  intros H. injection H as <- _. exact E.
Qed.

Lemma firstn_head {A} (n : nat) (s : list A) (c : A) (r : list A) :
  firstn n s = c :: r -> exists r', s = c :: r'.
Proof.
  destruct n; [discriminate|]. destruct s; [discriminate|].
  simpl. intros H. injection H as <- _. eauto.
Qed.

Lemma rev_dropwhile_last (f : N -> bool) (s pre : str) (c : N) :
  rev (dropwhile f (rev s)) = pre ++ [c] -> f c = false.
Proof.
  intros H. apply (f_equal (@rev N)) in H.
  rewrite rev_involutive, rev_app_distr in H. simpl in H.
  eapply dropwhile_head; eauto.
Qed.

(** White space stripped from a text leaves a piece of it, which does not
    start with white space. *)
Lemma strip_absent (s t : str) : absent s t -> absent (strip s) t.
Proof.
  intros H. unfold strip, rstrip, lstrip.
  destruct (dropwhile_skipn isspace s) as [n ->].
  destruct (rev_dropwhile_firstn isspace (skipn n s)) as [m ->].
  now apply absent_firstn, absent_skipn.
Qed.

Lemma strip_head (s : str) (c : N) (r : str) :
  strip s = c :: r -> isspace c = false.
Proof.
  unfold strip, rstrip, lstrip. intros H.
  destruct (rev_dropwhile_firstn isspace (dropwhile isspace s)) as [m Hm].
  rewrite Hm in H. destruct (firstn_head _ _ _ _ H) as [r' Hr'].
  eapply dropwhile_head; eauto.
Qed.

Lemma strip_involutive (s : str) : strip (strip s) = strip s.
Proof.
  assert (Hr : forall x, rstrip (rstrip x) = rstrip x).
  { intros x. unfold rstrip. rewrite rev_involutive.
    f_equal. destruct (dropwhile isspace (rev x)) as [|c r] eqn:E;
      [reflexivity|].
    pose proof (dropwhile_head _ _ _ _ E) as Hc. simpl. now rewrite Hc. }
  unfold strip at 1.
  assert (Hl : lstrip (strip s) = strip s).
  { unfold lstrip. destruct (strip s) as [|c r] eqn:E; [reflexivity|].
    pose proof (strip_head _ _ _ E) as Hc. simpl. now rewrite Hc. }
  rewrite Hl. unfold strip. apply Hr.
Qed.

Section ParserShape.

Variable upper_cp : N -> str.
Variable json_loads : str -> result value.

(** X8. A structured response whose [sql] field, trimmed, is not empty
    and starts with SELECT once upper-cased yields that trimmed statement
    with the trimmed [interpretation] field, or with the default
    interpretation when the field is missing. *)
Theorem parse_structured_statement (response : str)
  (d : list (str * value)) (s i : str) :
  json_loads (strip response) = Ok (VDict d) ->
  dict_get d (lit "sql") (VStr []) = VStr s ->
  strip s <> [] ->
  startswith (upper upper_cp (strip s)) SELECT = true ->
  dict_get d (lit "interpretation") (VStr (lit "AI生成的查询")) = VStr i ->
  _parse_ai_response upper_cp json_loads response
  = Ok (Some (strip s), strip i)
  /\ (dict_mem d (lit "interpretation") = false ->
      _parse_ai_response upper_cp json_loads response
      = Ok (Some (strip s), lit "AI生成的查询")).
Proof.
  intros Hjson Hs Hne Hsel Hi.
  assert (H : _parse_ai_response upper_cp json_loads response
              = Ok (Some (strip s), strip i)).
  { rewrite (parse_decoded upper_cp json_loads response _ Hjson).
    cbn [method_get rbind]. rewrite Hs. cbn [method_strip rbind].
    rewrite Hi. cbn [method_strip rbind]. rewrite Hsel.
    apply str_eqb_neq in Hne. now rewrite Hne. }
  split; [exact H|].
  intros Habs. rewrite H.
  rewrite (dict_get_absent d _ _ Habs) in Hi. injection Hi as <-.
  reflexivity.
Qed.

(** X9. The parser itself is not total: on a response that is JSON but
    not an object, or an object whose [sql] or [interpretation] field is
    not a text, it raises [AttributeError], which the handler for
    [JSONDecodeError] does not catch. *)
Theorem parse_raises_on_non_record (response : str) (parsed : value) :
  json_loads (strip response) = Ok parsed ->
  isinstance_dict parsed = false
  \/ (exists d, parsed = VDict d
                /\ (isinstance_str (dict_get d (lit "sql") (VStr []))
                    = false
                    \/ isinstance_str
                         (dict_get d (lit "interpretation")
                            (VStr (lit "AI生成的查询"))) = false)) ->
  _parse_ai_response upper_cp json_loads response = Raise AttributeError.
Proof.
  intros Hjson H.
  rewrite (parse_decoded upper_cp json_loads response _ Hjson).
  destruct H as [H | [d [-> H]]].
  - destruct parsed; try reflexivity. discriminate.
  - cbn [method_get rbind].
    destruct (dict_get d (lit "sql") (VStr [])) eqn:E1;
      try reflexivity. cbn [method_strip rbind].
    destruct H as [H|H]; [discriminate|].
    destruct (dict_get d (lit "interpretation") (VStr (lit "AI生成的查询")));
      try reflexivity. discriminate.
Qed.

Lemma cut_at_terminator_no_fence (s : str) :
  absent (cut_at_terminator s TERMINATORS) FENCE.
Proof.
  unfold TERMINATORS. cbn [cut_at_terminator]. unfold find.
  destruct (find_nat s FENCE) as [i|] eqn:F.
  - replace (negb (Z.of_nat i =? -1)%Z) with true
      by (symmetry; apply negb_true_iff, Z.eqb_neq; lia).
    rewrite slice_to_nat. apply first_occurrence_cuts; [discriminate|].
    now apply find_nat_sound.
  - cbn [Z.eqb negb]. apply find_nat_none_absent in F.
    destruct (find_nat s DOUBLE_LF) as [j|].
    + replace (negb (Z.of_nat j =? -1)%Z) with true
        by (symmetry; apply negb_true_iff, Z.eqb_neq; lia).
      rewrite slice_to_nat. now apply absent_firstn.
    + cbn [Z.eqb negb]. destruct (find_nat s DOUBLE_CRLF) as [j|].
      * replace (negb (Z.of_nat j =? -1)%Z) with true
          by (symmetry; apply negb_true_iff, Z.eqb_neq; lia).
        rewrite slice_to_nat. now apply absent_firstn.
      * exact F.
Qed.

(** X10. A statement the text scan returns is a clean piece of the
    response: it is not empty, holds no code fence, does not start with
    white space and does not end with a comma; its interpretation is the
    fixed text for extracted queries. *)
Theorem text_scan_statement_shape (response sql_query interp : str) :
  json_loads (strip response) = Raise JSONDecodeError ->
  _parse_ai_response upper_cp json_loads response
  = Ok (Some sql_query, interp) ->
  sql_query <> []
  /\ contains sql_query FENCE = false
  /\ (forall c rest, sql_query = c :: rest -> isspace c = false)
  /\ (forall pre, sql_query <> pre ++ lit ",")
  /\ interp = lit "从文本中提取的查询".
Proof.
  intros Hjson H.
  rewrite (parse_not_json upper_cp json_loads response Hjson) in H.
  injection H as H.
  destruct (find_nat (upper upper_cp response) SELECT) as [k|] eqn:Hk.
  2:{ rewrite (extract_sql_from_text_none upper_cp response Hk) in H.
      discriminate. }
  rewrite (extract_sql_from_text_accept upper_cp response k Hk) in H.
  unfold accept_candidate in H.
  set (cand := cut_at_terminator (skipn k response) TERMINATORS) in *.
  destruct (startswith
              (upper upper_cp (rstrip_chars (lit ",") (strip cand)))
              SELECT) eqn:Hsel; [|discriminate].
  injection H as <- <-.
  split; [|split; [|split; [|split]]].
  - intros E. rewrite E in Hsel. discriminate.
  - apply contains_false_iff. unfold rstrip_chars.
    destruct (rev_dropwhile_firstn
                (fun c => existsb (N.eqb c) (lit ",")) (strip cand))
      as [n ->].
    apply absent_firstn, strip_absent, cut_at_terminator_no_fence.
  - intros c rest E. unfold rstrip_chars in E.
    destruct (rev_dropwhile_firstn
                (fun c => existsb (N.eqb c) (lit ",")) (strip cand))
      as [n Hn].
    rewrite Hn in E. destruct (firstn_head _ _ _ _ E) as [r' Hr'].
    eapply strip_head; eauto.
  - intros pre E. unfold rstrip_chars in E.
    apply rev_dropwhile_last in E. discriminate.
  - reflexivity.
Qed.

End ParserShape.

(* ================================================================== *)
(** ** More on the introduction loader *)
(* ================================================================== *)

Lemma dict_get_set_same {A} (d : list (str * A)) (key : str) (v dflt : A) :
  dict_get (dict_set d key v) key dflt = v.
Proof.
  induction d as [|[k w] d IH]; cbn [dict_set dict_get].
  - now rewrite str_eqb_refl.
  - destruct (str_eqb k key) eqn:E; cbn [dict_get]; rewrite E;
      [reflexivity | exact IH].
Qed.

Lemma dict_get_set_other {A} (d : list (str * A)) (key key' : str)
  (v dflt : A) :
  key <> key' ->
  dict_get (dict_set d key' v) key dflt = dict_get d key dflt.
Proof.
  intros Hne. induction d as [|[k w] d IH]; cbn [dict_set dict_get].
  - assert (E : str_eqb key' key = false)
      by (apply str_eqb_neq; congruence).
    now rewrite E.
  - destruct (str_eqb k key') eqn:E; cbn [dict_get].
    + apply str_eqb_eq in E. subst k.
      assert (E : str_eqb key' key = false)
        by (apply str_eqb_neq; congruence).
      now rewrite E.
    + destruct (str_eqb k key); [reflexivity | exact IH].
Qed.

Lemma in_dict_set {A} (d : list (str * A)) (key : str) (v : A)
  (k0 : str) (v0 : A) :
  In (k0, v0) (dict_set d key v) ->
  (k0 = key /\ v0 = v) \/ In (k0, v0) d.
Proof.
  induction d as [|[k w] d IH]; cbn [dict_set].
  - intros [H|[]]. injection H as <- <-. now left.
  - destruct (str_eqb k key) eqn:E.
    + apply str_eqb_eq in E. subst k.
      intros [H|H]; [injection H as <- <-; now left | right; now right].
    + intros [H|H]; [right; now left|].
      destruct (IH H) as [?|?]; [now left | right; now right].
Qed.

Lemma keys_dict_set {A} (d : list (str * A)) (key : str) (v : A) :
  keys (dict_set d key v)
  = if dict_mem d key then keys d else keys d ++ [key].
Proof.
  unfold keys, dict_mem.
  induction d as [|[k w] d IH]; cbn [dict_set map existsb fst];
    [reflexivity|].
  destruct (str_eqb k key); cbn [map fst orb]; [reflexivity|].
  rewrite IH. now destruct (existsb _ d).
Qed.

Lemma dict_mem_in_keys {A} (d : list (str * A)) (key : str) :
  dict_mem d key = false -> ~ In key (keys d).
Proof.
  unfold dict_mem, keys. induction d as [|[k w] d IH];
    cbn [existsb map fst]; [intros _ []|].
  destruct (str_eqb k key) eqn:E; [discriminate|].
  apply str_eqb_neq in E. cbn [orb]. intros H [Hk|Hk]; [congruence|].
  now apply IH.
Qed.

Section LoaderCache.

Variable json_loads : str -> result value.
Variable py_repr : value -> str.

Local Abbreviation fill := (fill_cache py_repr).
Local Abbreviation build := (_build_intro_cache json_loads py_repr).
Local Abbreviation get_intro := (get_movie_introduction json_loads py_repr).

(** One turn of the loop. *)
Lemma fill_cache_cons (item : value) (rest : list value)
  (cache : list (str * str)) :
  fill (item :: rest) cache
  = match item with
    | VDict d =>
        match py_or (dict_get d (lit "introduction") VNone) (VStr []) with
        | VStr _ =>
            fill rest
              (if str_eqb (item_key py_repr item) [] then cache
               else dict_set cache (item_key py_repr item)
                      (item_introduction item))
        | _ => Raise AttributeError
        end
    | _ => Raise AttributeError
    end.
Proof.
  destruct item; try reflexivity.
  cbn [fill_cache method_get rbind]. unfold item_key, item_introduction.
  now destruct (py_or (dict_get d (lit "introduction") VNone) (VStr [])).
Qed.

Lemma fill_cache_app (a b : list value) (cache cache' : list (str * str)) :
  fill (a ++ b) cache = Ok cache' ->
  exists middle, fill a cache = Ok middle /\ fill b middle = Ok cache'.
Proof.
  revert cache. induction a as [|item a IH]; intros cache H.
  - exists cache. split; [reflexivity | exact H].
  - rewrite <- app_comm_cons, fill_cache_cons in H. rewrite fill_cache_cons.
    destruct item; try discriminate.
    destruct (py_or (dict_get d (lit "introduction") VNone) (VStr []));
      try discriminate.
    now apply IH.
Qed.

(** Items with other keys leave the entry of [key] alone. *)
Lemma fill_cache_keeps (key : str) (items : list value) :
  Forall (fun item => item_key py_repr item <> key) items ->
  forall cache cache',
    fill items cache = Ok cache' ->
    dict_get cache' key [] = dict_get cache key [].
Proof.
  induction 1 as [|item items Hk _ IH]; intros cache cache' H.
  - injection H as <-. reflexivity.
  - rewrite fill_cache_cons in H.
    destruct item; try discriminate.
    destruct (py_or (dict_get d (lit "introduction") VNone) (VStr []));
      try discriminate.
    rewrite (IH _ _ H).
    destruct (str_eqb (item_key py_repr (VDict d)) []); [reflexivity|].
    apply dict_get_set_other. congruence.
Qed.

(** The invariant of the cache under construction. *)
Lemma fill_cache_invariant (items : list value) :
  forall cache cache',
    fill items cache = Ok cache' ->
    NoDup (keys cache) ->
    (forall k v, In (k, v) cache ->
                 k <> [] /\ strip k = k /\ strip v = v) ->
    NoDup (keys cache')
    /\ (forall k v, In (k, v) cache' ->
                    k <> [] /\ strip k = k /\ strip v = v).
Proof.
  induction items as [|item items IH]; intros cache cache' H Hnd Hin.
  - injection H as <-. auto.
  - rewrite fill_cache_cons in H.
    destruct item; try discriminate.
    destruct (py_or (dict_get d (lit "introduction") VNone) (VStr []))
      eqn:Ei; try discriminate.
    destruct (str_eqb (item_key py_repr (VDict d)) []) eqn:Ek.
    + eapply IH; eauto.
    + apply str_eqb_neq in Ek. eapply IH; [exact H | |].
      * rewrite keys_dict_set.
        destruct (dict_mem cache (item_key py_repr (VDict d))) eqn:Em;
          [exact Hnd|].
        apply NoDup_app; [exact Hnd | repeat constructor; intros [] |].
        intros k Hk [<-|[]].
        exact (dict_mem_in_keys _ _ Em Hk).
      * intros k v Hkv. apply in_dict_set in Hkv as [[-> ->]|Hkv];
          [|now apply Hin].
        split; [exact Ek|]. split.
        -- unfold item_key. apply strip_involutive.
        -- unfold item_introduction. rewrite Ei. apply strip_involutive.
Qed.

(** X14. The cache [_build_intro_cache] returns has no repeated key, no
    empty key, and only keys and introductions without surrounding white
    space. *)
Theorem intro_cache_well_formed (file : result str)
  (cache : list (str * str)) :
  _build_intro_cache json_loads py_repr file = Ok cache ->
  NoDup (keys cache)
  /\ (forall k v, In (k, v) cache ->
                  k <> [] /\ strip k = k /\ strip v = v).
Proof.
  unfold _build_intro_cache.
  destruct (let? content := file in json_loads content) as [data|e].
  - intros H. eapply fill_cache_invariant; [exact H | constructor |].
    intros k v [].
  - destruct e; intros H; try discriminate; injection H as <-;
      (split; [constructor | intros k v []]).
Qed.

(** X15. The last record of the file with a given key decides the
    introduction: if no later item has the key of [item], a lookup of that
    key returns the trimmed introduction of [item] (the empty text when
    its introduction is missing or null). *)
Theorem last_record_wins (content : str) (before after : list value)
  (item : value) (cache : list (str * str)) :
  json_loads content = Ok (VList (before ++ item :: after)) ->
  _build_intro_cache json_loads py_repr (Ok content) = Ok cache ->
  item_key py_repr item <> [] ->
  Forall (fun later => item_key py_repr later <> item_key py_repr item)
         after ->
  dict_get cache (item_key py_repr item) [] = item_introduction item
  /\ snd (get_movie_introduction json_loads py_repr
            (VStr (item_key py_repr item))
            {| intro_file := Ok content; _intro_cache := None |})
     = Ok (item_introduction item).
Proof.
  intros Hjson Hbuild Hkey Hafter.
  assert (Hget : dict_get cache (item_key py_repr item) []
                 = item_introduction item).
  { unfold _build_intro_cache in Hbuild. cbn [rbind] in Hbuild.
    rewrite Hjson in Hbuild.
    destruct (fill_cache_app _ _ _ _ Hbuild) as [middle [_ H2]].
    rewrite fill_cache_cons in H2.
    destruct item; try discriminate.
    destruct (py_or (dict_get d (lit "introduction") VNone) (VStr []));
      try discriminate.
    rewrite (fill_cache_keeps _ _ Hafter _ _ H2).
    apply str_eqb_neq in Hkey. rewrite Hkey.
    apply dict_get_set_same. }
  split; [exact Hget|].
  unfold get_movie_introduction, load_intro_cache.
  cbn [_intro_cache intro_file].
  replace (truthy (VStr (item_key py_repr item))) with true
    by (cbn [truthy]; destruct (item_key py_repr item); congruence).
  cbn [negb]. rewrite Hbuild. cbn [snd py_str]. now rewrite Hget.
Qed.

(** X12. The file is read once: after a lookup that succeeded on an empty
    cache, the cache holds what was built from the file, and every later
    lookup is answered from it, whatever has become of the file. *)
Theorem intro_cache_is_built_once (douban_id : value) (file : result str)
  (st1 : Loader) (introduction : str) :
  truthy douban_id = true ->
  get_movie_introduction json_loads py_repr douban_id
    {| intro_file := file; _intro_cache := None |}
  = (st1, Ok introduction) ->
  exists cache,
    _build_intro_cache json_loads py_repr file = Ok cache
    /\ st1 = {| intro_file := file; _intro_cache := Some cache |}
    /\ forall later_id file',
         get_movie_introduction json_loads py_repr later_id
           {| intro_file := file'; _intro_cache := Some cache |}
         = ({| intro_file := file'; _intro_cache := Some cache |},
            Ok (if truthy later_id
                then dict_get cache (py_str py_repr later_id) []
                else [])).
Proof.
  intros Ht H. unfold get_movie_introduction, load_intro_cache in H.
  rewrite Ht in H. cbn [negb _intro_cache intro_file] in H.
  destruct (build file) as [cache|e] eqn:Hb; [|discriminate].
  injection H as <- _. exists cache. split; [reflexivity|].
  split; [reflexivity|].
  intros later_id file'. unfold get_movie_introduction, load_intro_cache.
  cbn [_intro_cache]. now destruct (truthy later_id).
Qed.

(** X13. A load that fails changes nothing: when building the cache from
    the file raises, a forced reload and a first lookup raise the same
    exception and leave the state as it was, and with a cache already
    there lookups are still answered from it. *)
Theorem failed_load_keeps_state (st : Loader) (e : exn) :
  _build_intro_cache json_loads py_repr (intro_file st) = Raise e ->
  load_intro_cache json_loads py_repr true st = (st, Raise e)
  /\ (forall douban_id,
        truthy douban_id = true -> _intro_cache st = None ->
        get_movie_introduction json_loads py_repr douban_id st
        = (st, Raise e))
  /\ (forall douban_id cache,
        truthy douban_id = true -> _intro_cache st = Some cache ->
        get_movie_introduction json_loads py_repr douban_id st
        = (st, Ok (dict_get cache (py_str py_repr douban_id) []))).
Proof.
  intros Hb. split; [|split].
  - unfold load_intro_cache. now rewrite Hb.
  - intros douban_id Ht Hc. unfold get_movie_introduction, load_intro_cache.
    now rewrite Ht, Hc, Hb.
  - intros douban_id cache Ht Hc.
    unfold get_movie_introduction, load_intro_cache. now rewrite Ht, Hc.
Qed.

Lemma fill_cache_records_then_bad (before after : list value) (bad : value)
  (cache : list (str * str)) :
  Forall intro_record before -> ~ intro_record bad ->
  fill (before ++ bad :: after) cache = Raise AttributeError.
Proof.
  intros Hrec Hbad. revert cache.
  induction Hrec as [|item items [d [-> Hi]] _ IH]; intros cache.
  - cbn [app]. rewrite fill_cache_cons.
    destruct bad; try reflexivity.
    unfold py_or.
    destruct (truthy (dict_get d (lit "introduction") VNone)) eqn:T.
    + destruct (dict_get d (lit "introduction") VNone) eqn:E;
        try reflexivity.
      exfalso. apply Hbad. exists d. split; [reflexivity|].
      rewrite E. eauto.
    + exfalso. apply Hbad. exists d. split; [reflexivity|].
      rewrite T. discriminate.
  - rewrite <- app_comm_cons, fill_cache_cons.
    unfold py_or.
    destruct (truthy (dict_get d (lit "introduction") VNone)) eqn:T.
    + destruct (Hi eq_refl) as [s ->]. apply IH.
    + apply IH.
Qed.

(** X16. The errors the loader lets through: an error of opening or
    decoding the file other than [FileNotFoundError] and
    [JSONDecodeError] is raised again, and a list in which some item is
    not a record (not an object, or with an introduction that is neither
    falsy nor a text) raises [AttributeError]; a first lookup of a
    non-empty identifier then raises too and leaves the cache unset. *)
Theorem intro_loader_escaping_errors :
  (forall file e,
      (let? content := file in json_loads content) = Raise e ->
      e <> FileNotFoundError -> e <> JSONDecodeError ->
      _build_intro_cache json_loads py_repr file = Raise e)
  /\ (forall content before bad after,
        json_loads content = Ok (VList (before ++ bad :: after)) ->
        Forall intro_record before -> ~ intro_record bad ->
        _build_intro_cache json_loads py_repr (Ok content)
        = Raise AttributeError
        /\ forall douban_id,
             truthy douban_id = true ->
             get_movie_introduction json_loads py_repr douban_id
               {| intro_file := Ok content; _intro_cache := None |}
             = ({| intro_file := Ok content; _intro_cache := None |},
                Raise AttributeError)).
Proof.
  split.
  - intros file e H Hf Hj. unfold _build_intro_cache. rewrite H.
    destruct e; congruence.
  - intros content before bad after Hjson Hrec Hbad.
    assert (Hb : build (Ok content) = Raise AttributeError).
    { unfold _build_intro_cache. cbn [rbind]. rewrite Hjson.
      now apply fill_cache_records_then_bad. }
    split; [exact Hb|].
    intros douban_id Ht. unfold get_movie_introduction, load_intro_cache.
    cbn [_intro_cache intro_file]. now rewrite Ht, Hb.
Qed.

End LoaderCache.

(* ================================================================== *)
(** ** Listing and credentials *)
(* ================================================================== *)

Section CatalogFacts.

Variable Env : Type.
Variable fetch_one :
  str -> list value -> Env -> Env * result (option (list (str * value))).
Variable execute_update :
  str -> list value -> Env -> Env * result Z.
Variable check_password_hash : str -> str -> hash_verdict.


(** X18. [_verify_password] accepts exactly when the stored value is a
    text and either the hash check accepts it (for a text that starts with
    a hash prefix), or the stored text equals the provided one (for a text
    without hash prefix, or when the hash check raises [ValueError]); a
    NULL password is never accepted. *)
Theorem verify_password_accepts_iff (stored : value) (provided : str) :
  _verify_password check_password_hash stored provided = Ok true
  <-> exists s,
        stored = VStr s
        /\ if startswith s (lit "pbkdf2:") || startswith s (lit "scrypt:")
           then check_password_hash s provided = Verdict true
                \/ (check_password_hash s provided = HashValueError
                    /\ s = provided)
           else s = provided.
Proof.
  unfold _verify_password, _is_password_hash.
  destruct stored as [ |b|n|f|s|l|d]; cbn [truthy negb rbind py_eq_str].
  1: split; [discriminate | intros [s0 [H _]]; discriminate].
  1: destruct b; cbn [negb rbind];
       (split; [discriminate | intros [s0 [H _]]; discriminate]).
  1: destruct (negb (n =? 0)%Z); cbn [negb rbind];
       (split; [discriminate | intros [s0 [H _]]; discriminate]).
  1: destruct (float_truthy f); cbn [negb rbind];
       (split; [discriminate | intros [s0 [H _]]; discriminate]).
  2: destruct l; cbn [negb rbind];
       (split; [discriminate | intros [s0 [H _]]; discriminate]).
  2: destruct d; cbn [negb rbind];
       (split; [discriminate | intros [s0 [H _]]; discriminate]).
  destruct s as [|c s]; cbn [negb rbind].
  - split.
    + intros H. injection H as H. apply str_eqb_eq in H. subst provided.
      exists []. split; [reflexivity|]. reflexivity.
    + intros [s0 [H Hs]]. injection H as <-. cbn in Hs. subst provided.
      reflexivity.
  - destruct (startswith (c :: s) (lit "pbkdf2:")
              || startswith (c :: s) (lit "scrypt:")) eqn:Eh.
    + split.
      * intros H. exists (c :: s). split; [reflexivity|]. rewrite Eh.
        destruct (check_password_hash (c :: s) provided) as [b| |e];
          [injection H as ->; now left | | discriminate].
        right. split; [reflexivity|]. injection H as H.
        now apply str_eqb_eq in H.
      * intros [s0 [H Hs]]. injection H as <-. rewrite Eh in Hs.
        destruct Hs as [-> | [-> <-]]; [reflexivity|].
        now rewrite str_eqb_refl.
    + split.
      * intros H. exists (c :: s). split; [reflexivity|]. rewrite Eh.
        injection H as H. now apply str_eqb_eq in H.
      * intros [s0 [H Hs]]. injection H as <-. rewrite Eh in Hs.
        subst provided. now rewrite str_eqb_refl.
Qed.

Lemma sanitize_keys (user : list (str * value)) :
  keys (_sanitize_user_record user) = USER_FIELDS.
Proof. reflexivity. Qed.

(** X19. A record [verify_user_credentials] returns never holds the
    password: it has exactly the fields user_id, username, email,
    last_login and created_at, each with the value of the row found for
    the user name, and the password of that row was verified. *)
Theorem verified_record_is_sanitized (username password : str)
  (e e' : Env) (record : list (str * value)) :
  verify_user_credentials fetch_one execute_update check_password_hash
    username password e
  = (e', Ok (Some record)) ->
  keys record = USER_FIELDS
  /\ dict_mem record (lit "password") = false
  /\ exists user stored,
       snd (fetch_one user_query [VStr username] e) = Ok (Some user)
       /\ getitem_key (VDict user) (lit "password") = Ok stored
       /\ _verify_password check_password_hash stored password = Ok true
       /\ forall field, In field USER_FIELDS ->
            dict_get record field VNone = dict_get user field VNone.
Proof.
  unfold verify_user_credentials, get_user_by_username.
  destruct (fetch_one user_query [VStr username] e)
    as [e1 [[[|row user]|]|err]]; try discriminate.
  set (found := row :: user).
  destruct (getitem_key (VDict found) (lit "password")) as [stored|]
    eqn:Ep; cbn [rbind]; [|discriminate].
  destruct (_verify_password check_password_hash stored password)
    as [[|]|] eqn:Ev; try discriminate.
  destruct (getitem_key (VDict found) (lit "user_id")) as [user_id|];
    [|discriminate].
  intros H. injection H as _ <-.
  split; [reflexivity|]. split; [reflexivity|].
  exists found, stored. cbn [snd]. repeat split; auto.
  intros field Hin. unfold USER_FIELDS in Hin. cbn [In] in Hin.
  destruct Hin as [<-|[<-|[<-|[<-|[<-|[]]]]]]; reflexivity.
Qed.

(** X20. No user, or a password that does not verify: the answer is
    [None] and nothing but the lookup has touched the store; the time of
    the last login is not updated. *)
Theorem rejected_login_updates_nothing (username password : str)
  (e e1 : Env) (found : option (list (str * value))) :
  fetch_one user_query [VStr username] e = (e1, Ok found) ->
  found = None \/ found = Some []
  \/ (exists user stored,
         found = Some user
         /\ getitem_key (VDict user) (lit "password") = Ok stored
         /\ _verify_password check_password_hash stored password
            = Ok false) ->
  verify_user_credentials fetch_one execute_update check_password_hash
    username password e
  = (e1, Ok None).
Proof.
  intros Hf H. unfold verify_user_credentials, get_user_by_username.
  rewrite Hf.
  destruct H as [-> | [-> | [user [stored [-> [Hp Hv]]]]]];
    try reflexivity.
  destruct user as [|row user]; [reflexivity|].
  rewrite Hp. cbn [rbind]. now rewrite Hv.
Qed.

(** X21. A login does not depend on the update of the last login: when
    the user is found and the password verifies, the sanitized record is
    returned whether the update succeeds or raises. *)
Theorem login_survives_failed_update (username password : str)
  (e e1 : Env) (user : list (str * value)) (stored user_id : value) :
  fetch_one user_query [VStr username] e = (e1, Ok (Some user)) ->
  getitem_key (VDict user) (lit "password") = Ok stored ->
  _verify_password check_password_hash stored password = Ok true ->
  getitem_key (VDict user) (lit "user_id") = Ok user_id ->
  forall e2 outcome,
    execute_update last_login_update [user_id] e1 = (e2, outcome) ->
    verify_user_credentials fetch_one execute_update check_password_hash
      username password e
    = (e2, Ok (Some (_sanitize_user_record user))).
Proof.
  intros Hf Hp Hv Hu e2 outcome Hup.
  unfold verify_user_credentials, get_user_by_username, _update_last_login.
  rewrite Hf.
  destruct user as [|row user]; [discriminate|].
  rewrite Hp. cbn [rbind]. rewrite Hv, Hu, Hup. reflexivity.
Qed.

End CatalogFacts.


Section Listing.

Variable Env : Type.
Variable fetch_one :
  str -> list value -> Env -> Env * result (option (list (str * value))).
Variable fetch_all :
  str -> list value -> Env -> Env * result (list value).


End Listing.

(* ================================================================== *)
(** ** What the check of the executor does not look at *)
(* ================================================================== *)

Lemma dropwhile_all (f : N -> bool) (s : str) :
  forallb f s = true -> dropwhile f s = [].
Proof.
  induction s as [|c s IH]; [reflexivity|].
  simpl. destruct (f c); [exact IH | discriminate].
Qed.

Section LeadingVerbOnly.

Variable upper_cp : N -> str.
Variable Env : Type.
Variable cursor_execute :
  str -> list str -> Env -> Env * result (list value).

Lemma startswith_rstrip_SELECT (x : str) :
  startswith x SELECT = true -> startswith (rstrip x) SELECT = true.
Proof.
  intros H. destruct (startswith_split _ _ H) as [r ->].
  destruct (rstrip_keeps_prefix [83; 69; 76; 69; 67]%N 84%N r eq_refl)
    as [r' Hr'].
  change ([83; 69; 76; 69; 67]%N ++ [84%N]) with SELECT in Hr'.
  rewrite Hr'. apply startswith_app.
Qed.

Lemma is_select_app (sql_query rest : str) :
  is_select upper_cp sql_query = true ->
  is_select upper_cp (sql_query ++ rest) = true.
Proof.
  unfold is_select, upper. rewrite flat_map_app.
  set (a := flat_map upper_cp sql_query).
  set (b := flat_map upper_cp rest).
  intros H. unfold strip in *.
  destruct (rev_dropwhile_firstn isspace (lstrip a)) as [n Hn].
  unfold rstrip in H. rewrite Hn in H. apply startswith_firstn in H.
  destruct (startswith_split _ _ H) as [r Hr].
  assert (Hl : lstrip (a ++ b) = lstrip a ++ b).
  { unfold lstrip in *. rewrite dropwhile_app.
    destruct (forallb isspace a) eqn:Ea; [|reflexivity].
    rewrite (dropwhile_all _ _ Ea) in Hr. discriminate. }
  apply startswith_rstrip_SELECT.
  rewrite Hl, Hr, <- app_assoc. apply startswith_app.
Qed.

(** X11. The check reads the leading verb only: whatever is appended to a
    statement that passes the check, the whole text passes too and is
    handed to the store as it is; so a text with further statements after
    a semicolon reaches the store. *)
Theorem select_check_reads_leading_verb_only (sql_query rest : str)
  (w : World Env) :
  is_select upper_cp sql_query = true ->
  is_select upper_cp (sql_query ++ rest) = true
  /\ executed (fst (_execute_ai_sql upper_cp cursor_execute
                      (sql_query ++ rest) w))
     = executed w ++ [(sql_query ++ rest, [])].
Proof.
  intros H. pose proof (is_select_app sql_query rest H) as H'.
  split; [exact H'|].
  now rewrite (execute_runs upper_cp Env cursor_execute _ w H').
Qed.

End LeadingVerbOnly.

(* ================================================================== *)
(** ** Further runs on the small store *)
(* ================================================================== *)

Lemma ai_search_falls_back_without_response_witness :
  ai_search ascii_upper_cp Toy.json_loads Toy.cursor_execute
    Demo.requests_post_unavailable Toy.API_KEY [] [] (lit "肖申克")
    Toy.world0
  = (after_query
       {| env := tt; executed := []; posted := [lit "肖申克"] |} tt
       SEARCH_QUERY
       [lit "%肖申克%"; lit "%肖申克%"; lit "%肖申克%"; lit "%肖申克%"],
     Ok (fallback_result (lit "肖申克") [Toy.movie_row])).
Proof.
  apply (ai_search_falls_back_without_response ascii_upper_cp Toy.json_loads
           unit Toy.cursor_execute Demo.requests_post_unavailable
           Toy.API_KEY [] [] (lit "肖申克") Toy.world0
           {| env := tt; executed := []; posted := [lit "肖申克"] |}
           _ VNone [Toy.movie_row]).
  - vm_compute. discriminate.
  - vm_compute. reflexivity.
  - reflexivity.
  - vm_compute. reflexivity.
Defined.

(** Scenario 4: a DELETE from the model is never executed. *)
Lemma ai_search_falls_back_without_statement_witness :
  let outcome :=
    ai_search ascii_upper_cp Toy.json_loads Toy.cursor_execute
      (Toy.requests_post Demo.response_delete) Toy.API_KEY [] []
      (lit "肖申克") Toy.world0 in
  snd outcome = Ok (fallback_result (lit "肖申克") [Toy.movie_row])
  /\ executed (fst outcome)
     = [(SEARCH_QUERY,
         [lit "%肖申克%"; lit "%肖申克%"; lit "%肖申克%"; lit "%肖申克%"])].
Proof.
  destruct (ai_search_falls_back_without_statement ascii_upper_cp
              Toy.json_loads unit Toy.cursor_execute
              (Toy.requests_post Demo.response_delete) Toy.API_KEY [] []
              (lit "肖申克") Toy.world0
              {| env := tt; executed := []; posted := [lit "肖申克"] |}
              (after_query
                 {| env := tt; executed := []; posted := [lit "肖申克"] |}
                 tt SEARCH_QUERY
                 [lit "%肖申克%"; lit "%肖申克%"; lit "%肖申克%";
                  lit "%肖申克%"])
              (VStr Demo.response_delete) [Toy.movie_row]) as [H1 H2].
  - vm_compute. discriminate.
  - vm_compute. reflexivity.
  - reflexivity.
  - left. exists (lit "删除所有电影"). vm_compute. reflexivity.
  - vm_compute. reflexivity.
  - cbv zeta. rewrite H1. split; [reflexivity|]. exact H2.
Defined.

(** Scenario 2 on the title projection. *)
Lemma ai_search_returns_generated_rows_witness :
  ai_search ascii_upper_cp Toy.json_loads Toy.cursor_execute
    (Toy.requests_post Toy.response_title_only) Toy.API_KEY [] []
    (lit "肖申克") Toy.world0
  = (after_query
       {| env := tt; executed := []; posted := [lit "肖申克"] |} tt
       (lit "SELECT cn_title FROM movie") [],
     Ok {| movies := firstn 50 [Toy.title_row];
           sql := lit "SELECT cn_title FROM movie";
           interpretation := lit "电影名称" |}).
Proof.
  apply (proj1 (ai_search_returns_generated_rows ascii_upper_cp
                  Toy.json_loads unit Toy.cursor_execute
                  (Toy.requests_post Toy.response_title_only) Toy.API_KEY
                  [] [] (lit "肖申克") Toy.world0
                  {| env := tt; executed := []; posted := [lit "肖申克"] |}
                  Toy.response_title_only
                  (lit "SELECT cn_title FROM movie") (lit "电影名称") tt
                  [Toy.title_row]
                  ltac:(vm_compute; discriminate)
                  ltac:(vm_compute; reflexivity)
                  ltac:(vm_compute; discriminate)
                  ltac:(vm_compute; reflexivity)
                  ltac:(vm_compute; reflexivity)
                  ltac:(intros first H; injection H as <-; reflexivity))).
Defined.

Lemma ai_search_raises_only_from_keyword_search_witness :
  ai_search ascii_upper_cp Toy.json_loads Demo.cursor_execute_down
    (Toy.requests_post []) [] [] [] (lit "肖申克") Toy.world0
  = (after_query
       (after_query Toy.world0 tt SEARCH_QUERY
          [lit "%肖申克%"; lit "%肖申克%"; lit "%肖申克%"; lit "%肖申克%"])
       tt SEARCH_QUERY
       [lit "%肖申克%"; lit "%肖申克%"; lit "%肖申克%"; lit "%肖申克%"],
     Raise OperationalError)
  /\ exists w1,
       search_movies Demo.cursor_execute_down (lit "肖申克") w1
       = (after_query
            (after_query Toy.world0 tt SEARCH_QUERY
               [lit "%肖申克%"; lit "%肖申克%"; lit "%肖申克%";
                lit "%肖申克%"])
            tt SEARCH_QUERY
            [lit "%肖申克%"; lit "%肖申克%"; lit "%肖申克%"; lit "%肖申克%"],
          Raise OperationalError).
Proof.
  assert (H : ai_search ascii_upper_cp Toy.json_loads
                Demo.cursor_execute_down (Toy.requests_post []) [] [] []
                (lit "肖申克") Toy.world0
              = (after_query
                   (after_query Toy.world0 tt SEARCH_QUERY
                      [lit "%肖申克%"; lit "%肖申克%"; lit "%肖申克%";
                       lit "%肖申克%"])
                   tt SEARCH_QUERY
                   [lit "%肖申克%"; lit "%肖申克%"; lit "%肖申克%";
                    lit "%肖申克%"],
                 Raise OperationalError))
    by (vm_compute; reflexivity).
  split; [exact H|].
  exact (ai_search_raises_only_from_keyword_search ascii_upper_cp
           Toy.json_loads unit Demo.cursor_execute_down
           (Toy.requests_post []) [] [] [] (lit "肖申克") Toy.world0 _ _ H).
Defined.

Lemma parse_structured_statement_witness :
  _parse_ai_response ascii_upper_cp Toy.json_loads Toy.response_title_only
  = Ok (Some (strip (lit "SELECT cn_title FROM movie")),
        strip (lit "电影名称")).
Proof.
  apply (proj1 (parse_structured_statement ascii_upper_cp Toy.json_loads
                  Toy.response_title_only
                  [(lit "sql", VStr (lit "SELECT cn_title FROM movie"));
                   (lit "interpretation", VStr (lit "电影名称"))]
                  (lit "SELECT cn_title FROM movie") (lit "电影名称")
                  ltac:(vm_compute; reflexivity)
                  ltac:(vm_compute; reflexivity)
                  ltac:(vm_compute; discriminate)
                  ltac:(vm_compute; reflexivity)
                  ltac:(vm_compute; reflexivity))).
Defined.

Lemma parse_raises_on_non_record_witness :
  _parse_ai_response ascii_upper_cp Toy.json_loads Demo.response_array
  = Raise AttributeError.
Proof.
  apply (parse_raises_on_non_record ascii_upper_cp Toy.json_loads
           Demo.response_array (VList [VInt 1; VInt 2])).
  - vm_compute. reflexivity.
  - left. reflexivity.
Defined.

Lemma text_scan_statement_shape_witness :
  _parse_ai_response ascii_upper_cp Toy.json_loads Demo.response_free_text
  = Ok (Some (lit "select cn_title from movie "), lit "从文本中提取的查询")
  /\ contains (lit "select cn_title from movie ") FENCE = false
  /\ (forall pre, lit "select cn_title from movie " <> pre ++ lit ",").
Proof.
  assert (H : _parse_ai_response ascii_upper_cp Toy.json_loads
                Demo.response_free_text
              = Ok (Some (lit "select cn_title from movie "),
                    lit "从文本中提取的查询"))
    by (vm_compute; reflexivity).
  destruct (text_scan_statement_shape ascii_upper_cp Toy.json_loads
              Demo.response_free_text _ _
              ltac:(vm_compute; reflexivity) H)
    as [_ [H2 [_ [H4 _]]]].
  exact (conj H (conj H2 H4)).
Defined.

Lemma intro_cache_well_formed_witness :
  NoDup (keys [(lit "1292052", lit "银行家安迪被判终身监禁。")])
  /\ (forall k v,
        In (k, v) [(lit "1292052", lit "银行家安迪被判终身监禁。")] ->
        k <> [] /\ strip k = k /\ strip v = v).
Proof.
  apply (intro_cache_well_formed Toy.json_loads Toy.py_repr
           (Ok Toy.intro_content)).
  vm_compute. reflexivity.
Defined.

Lemma last_record_wins_witness :
  snd (get_movie_introduction Toy.json_loads Toy.py_repr
         (VStr (lit "1292052"))
         {| intro_file := Ok Demo.intro_duplicates;
            _intro_cache := None |})
  = Ok (lit "新简介").
Proof.
  apply (proj2 (last_record_wins Toy.json_loads Toy.py_repr
                  Demo.intro_duplicates [Demo.record_old]
                  [Demo.record_other] Demo.record_new
                  [(lit "1292052", lit "新简介"); (lit "1291546", [])]
                  ltac:(vm_compute; reflexivity)
                  ltac:(vm_compute; reflexivity)
                  ltac:(vm_compute; discriminate)
                  ltac:(constructor;
                        [vm_compute; discriminate | constructor]))).
Defined.

Lemma intro_cache_is_built_once_witness :
  exists cache,
    _build_intro_cache Toy.json_loads Toy.py_repr (Ok Toy.intro_content)
    = Ok cache
    /\ get_movie_introduction Toy.json_loads Toy.py_repr
         (VStr (lit "1292052"))
         {| intro_file := Raise FileNotFoundError;
            _intro_cache := Some cache |}
       = ({| intro_file := Raise FileNotFoundError;
             _intro_cache := Some cache |},
          Ok (lit "银行家安迪被判终身监禁。")).
Proof.
  destruct (intro_cache_is_built_once Toy.json_loads Toy.py_repr
              (VStr (lit "1292052")) (Ok Toy.intro_content)
              {| intro_file := Ok Toy.intro_content;
                 _intro_cache :=
                   Some [(lit "1292052", lit "银行家安迪被判终身监禁。")] |}
              (lit "银行家安迪被判终身监禁。")
              eq_refl ltac:(vm_compute; reflexivity))
    as [cache [Hb [Hst Hlater]]].
  exists cache. split; [exact Hb|].
  rewrite (Hlater (VStr (lit "1292052")) (Raise FileNotFoundError)).
  injection Hst as <-. reflexivity.
Defined.

Lemma failed_load_keeps_state_witness :
  load_intro_cache Toy.json_loads Toy.py_repr true
    {| intro_file := Ok Demo.intro_bad_item;
       _intro_cache := Some [(lit "1292052", lit "旧简介")] |}
  = ({| intro_file := Ok Demo.intro_bad_item;
        _intro_cache := Some [(lit "1292052", lit "旧简介")] |},
     Raise AttributeError).
Proof.
  apply (proj1 (failed_load_keeps_state Toy.json_loads Toy.py_repr
                  {| intro_file := Ok Demo.intro_bad_item;
                     _intro_cache := Some [(lit "1292052", lit "旧简介")] |}
                  AttributeError ltac:(vm_compute; reflexivity))).
Defined.

Lemma intro_loader_escaping_errors_witness :
  get_movie_introduction Toy.json_loads Toy.py_repr (VStr (lit "1292052"))
    {| intro_file := Ok Demo.intro_bad_item; _intro_cache := None |}
  = ({| intro_file := Ok Demo.intro_bad_item; _intro_cache := None |},
     Raise AttributeError).
Proof.
  apply (proj2 (proj2 (intro_loader_escaping_errors Toy.json_loads
                         Toy.py_repr)
                  Demo.intro_bad_item [Demo.record_bare] (VInt 7) []
                  ltac:(vm_compute; reflexivity)
                  ltac:(constructor;
                        [exists [(lit "id", VStr (lit "1292052"))];
                         split; [reflexivity | vm_compute; discriminate]
                        | constructor])
                  ltac:(intros [d [H _]]; discriminate))
           (VStr (lit "1292052")) eq_refl).
Defined.

(** A plain-text password verifies by equality; a stored text with a
    hash prefix that the hash check turns down does not verify, even
    against itself; a NULL password never verifies. *)
Lemma verify_password_accepts_iff_witness :
  _verify_password Demo.check_password_hash (VStr (lit "secret1"))
    (lit "secret1") = Ok true
  /\ _verify_password Demo.check_password_hash
       (VStr (lit "pbkdf2:garbage")) (lit "pbkdf2:garbage") <> Ok true
  /\ _verify_password Demo.check_password_hash VNone (lit "") <> Ok true.
Proof.
  split; [|split].
  - apply (proj2 (verify_password_accepts_iff Demo.check_password_hash
                    (VStr (lit "secret1")) (lit "secret1"))).
    exists (lit "secret1"). split; reflexivity.
  - intros H.
    apply (proj1 (verify_password_accepts_iff Demo.check_password_hash
                    (VStr (lit "pbkdf2:garbage")) (lit "pbkdf2:garbage")))
      in H.
    destruct H as [s [Hs H]]. injection Hs as <-.
    vm_compute in H. destruct H as [H | [H _]]; discriminate.
  - intros H.
    apply (proj1 (verify_password_accepts_iff Demo.check_password_hash
                    VNone (lit ""))) in H.
    destruct H as [s [H _]]. discriminate.
Defined.

Lemma verified_record_is_sanitized_witness :
  keys (_sanitize_user_record Demo.user_plain) = USER_FIELDS
  /\ dict_mem (_sanitize_user_record Demo.user_plain) (lit "password")
     = false.
Proof.
  destruct (verified_record_is_sanitized unit Demo.fetch_one
              Demo.execute_update Demo.check_password_hash
              (lit "alice") (lit "secret1") tt tt
              (_sanitize_user_record Demo.user_plain)
              ltac:(vm_compute; reflexivity)) as [H1 [H2 _]].
  exact (conj H1 H2).
Defined.

Lemma rejected_login_updates_nothing_witness :
  verify_user_credentials Demo.fetch_one Demo.execute_update
    Demo.check_password_hash (lit "alice") (lit "wrong-password") tt
  = (tt, Ok None).
Proof.
  apply (rejected_login_updates_nothing unit Demo.fetch_one
           Demo.execute_update Demo.check_password_hash
           (lit "alice") (lit "wrong-password") tt tt
           (Some Demo.user_plain)).
  - vm_compute. reflexivity.
  - right. right. exists Demo.user_plain, (VStr (lit "secret1")).
    split; [reflexivity|]. split; vm_compute; reflexivity.
Defined.

Lemma login_survives_failed_update_witness :
  Demo.execute_update last_login_update [VInt 7] tt
  = (tt, Raise OperationalError)
  /\ verify_user_credentials Demo.fetch_one Demo.execute_update
       Demo.check_password_hash (lit "alice") (lit "secret1") tt
     = (tt, Ok (Some (_sanitize_user_record Demo.user_plain))).
Proof.
  split; [reflexivity|].
  apply (login_survives_failed_update unit Demo.fetch_one
           Demo.execute_update Demo.check_password_hash
           (lit "alice") (lit "secret1") tt tt Demo.user_plain
           (VStr (lit "secret1")) (VInt 7)
           ltac:(vm_compute; reflexivity)
           ltac:(vm_compute; reflexivity)
           ltac:(vm_compute; reflexivity)
           ltac:(vm_compute; reflexivity)
           tt (Raise OperationalError) eq_refl).
Defined.

Lemma select_check_reads_leading_verb_only_witness :
  executed
    (fst (_execute_ai_sql ascii_upper_cp Toy.cursor_execute
            (lit "select 1" ++ lit "; DROP TABLE movie") Toy.world0))
  = [(lit "select 1; DROP TABLE movie", [])].
Proof.
  apply (proj2 (select_check_reads_leading_verb_only ascii_upper_cp unit
                  Toy.cursor_execute (lit "select 1")
                  (lit "; DROP TABLE movie") Toy.world0
                  ltac:(vm_compute; reflexivity))).
Defined.
